(** * Load-cell (strain gauge) driver: a shallow embedding of strain_gauge.c

    The driver computes on C [float] values.  They are modelled as IEEE 754
    binary32 data ([spec_float] of the Standard Library at precision 24 and
    maximal exponent 128) with round-to-nearest-even operations; an integer
    operand of a float operator is converted first, as C does.  Expressions
    are evaluated operator by operator in binary32 (no fused multiply-add,
    no wider intermediate format).

    Globals of the translation unit ([sg], [taring], [calibrating],
    [read_sg], [slope], [intercept]) are fields of [state]; the functions
    are computations in a state monad with fuel-bounded loops.  Arrays are
    seen through their base pointer: [mem st a i] is the float found at
    [a[i]], also when [i] lies past the declared length [bound st a], and
    every indexing is recorded in [log].

    Limit of the memory model: each array has cells of its own.  A read
    past the end of an array returns whatever the initial memory holds
    there.  A store past the end is recorded in [log] and kept in a cell of
    the same array; the object it overwrites in the running program (a
    neighbouring array or variable) is not modelled.  The value of a cell
    past the bounds after such a store, and what the fit computes from it,
    are therefore those of the model only, and no property below states
    them. *)

From Stdlib Require Import ZArith List Bool Lia.
From Stdlib Require Import Floats.SpecFloat.
Import ListNotations.

Local Open Scope Z_scope.

(** ** C [float]: IEEE 754 binary32 *)

Module F32.

Definition prec : Z := 24.
Definition emax : Z := 128.

Definition float := spec_float.

Definition add : float -> float -> float := SFadd prec emax.
Definition sub : float -> float -> float := SFsub prec emax.
Definition mul : float -> float -> float := SFmul prec emax.
Definition div : float -> float -> float := SFdiv prec emax.

(** [a > b] on floats: false as soon as one side is NaN. *)
Definition gt (a b : float) : bool := SFltb b a.

(** [a == b] on floats. *)
Definition eqb (a b : float) : bool := SFeqb a b.

(** Conversion of a C integer to [float]. *)
Definition of_int (z : Z) : float := binary_normalize prec emax z 0 false.

Definition zero : float := S754_zero false.
Definition one : float := of_int 1.
Definition nan : float := S754_nan.

(** A float variable only ever holds a well-formed binary32 datum. *)
Definition valid (x : float) : bool := valid_binary prec emax x.

Definition is_finite (x : float) : bool :=
  match x with
  | S754_zero _ | S754_finite _ _ _ => true
  | _ => false
  end.

Definition is_nan (x : float) : bool :=
  match x with S754_nan => true | _ => false end.

Definition is_zero (x : float) : bool :=
  match x with S754_zero _ => true | _ => false end.

Definition zero_or_nan (x : float) : bool := is_zero x || is_nan x.

End F32.

Import F32.

(** ** Machine integers *)

Definition u8 (z : Z) : Z := z mod 256.
Definition u16 (z : Z) : Z := z mod 65536.

(** ** Data model (strain_gauge.h) *)

Record StrainGauge := mkStrainGauge {
  capacity : Z;     (* uint16_t, capacity in kg *)
  VE : float;       (* excitation voltage V *)
  RO : float;       (* rated output mV/V *)
  offset : float    (* offset used for taring *)
}.

(** The arrays the driver indexes: the caller's [known_weights] and
    [equation], and the two data arrays [x] and [y]. *)
Inductive array_id := known_weights_arr | x_arr | y_arr | equation_arr.

Definition array_id_eqb (a b : array_id) : bool :=
  match a, b with
  | known_weights_arr, known_weights_arr
  | x_arr, x_arr
  | y_arr, y_arr
  | equation_arr, equation_arr => true
  | _, _ => false
  end.

Inductive access :=
| Read (a : array_id) (i : Z)
| Write (a : array_id) (i : Z).

Record state := mkState {
  sg : StrainGauge;                 (* StrainGauge sg *)
  taring : bool;                    (* volatile bool taring *)
  calibrating : bool;               (* volatile bool calibrating *)
  read_sg : bool;                   (* extern bool read_sg *)
  slope : float;                    (* static float slope *)
  intercept : float;                (* static float intercept *)
  adc_pos : nat;                    (* calls of adc_read_voltage so far *)
  waited_ms : Z;                    (* total time spent in delay_ms *)
  mem : array_id -> Z -> float;     (* a[i] *)
  bound : array_id -> Z;            (* declared number of elements of a *)
  log : list access                 (* array accesses, latest first *)
}.

(** Values of the globals when the program starts. *)
Definition initial_sg : StrainGauge := mkStrainGauge 0 zero zero zero.

Definition initial_state (m : array_id -> Z -> float) (b : array_id -> Z) : state :=
  mkState initial_sg false false false (of_int 0) (of_int 0) 0%nat 0 m b [].

Definition set_sg (v : StrainGauge) (st : state) : state :=
  mkState v (taring st) (calibrating st) (read_sg st) (slope st) (intercept st)
          (adc_pos st) (waited_ms st) (mem st) (bound st) (log st).

Definition set_taring (v : bool) (st : state) : state :=
  mkState (sg st) v (calibrating st) (read_sg st) (slope st) (intercept st)
          (adc_pos st) (waited_ms st) (mem st) (bound st) (log st).

Definition set_calibrating (v : bool) (st : state) : state :=
  mkState (sg st) (taring st) v (read_sg st) (slope st) (intercept st)
          (adc_pos st) (waited_ms st) (mem st) (bound st) (log st).

Definition set_read_sg (v : bool) (st : state) : state :=
  mkState (sg st) (taring st) (calibrating st) v (slope st) (intercept st)
          (adc_pos st) (waited_ms st) (mem st) (bound st) (log st).

Definition set_equation_fields (m b : float) (st : state) : state :=
  mkState (sg st) (taring st) (calibrating st) (read_sg st) m b
          (adc_pos st) (waited_ms st) (mem st) (bound st) (log st).

Definition set_adc_pos (v : nat) (st : state) : state :=
  mkState (sg st) (taring st) (calibrating st) (read_sg st) (slope st) (intercept st)
          v (waited_ms st) (mem st) (bound st) (log st).

Definition set_waited_ms (v : Z) (st : state) : state :=
  mkState (sg st) (taring st) (calibrating st) (read_sg st) (slope st) (intercept st)
          (adc_pos st) v (mem st) (bound st) (log st).

Definition set_bound (a : array_id) (n : Z) (st : state) : state :=
  mkState (sg st) (taring st) (calibrating st) (read_sg st) (slope st) (intercept st)
          (adc_pos st) (waited_ms st) (mem st)
          (fun a' => if array_id_eqb a a' then n else bound st a') (log st).

Definition set_offset (v : float) (s : StrainGauge) : StrainGauge :=
  mkStrainGauge (capacity s) (VE s) (RO s) v.

(** ** The state monad; [None] is a loop that has not finished within the fuel *)

Definition M (A : Type) : Type := state -> option (A * state).

Definition ret {A} (a : A) : M A := fun st => Some (a, st).

Definition bind {A B} (c : M A) (k : A -> M B) : M B :=
  fun st => match c st with
            | Some (a, st') => k a st'
            | None => None
            end.

Notation "x <- c ;; k" := (bind c (fun x => k))
  (at level 61, c at next level, right associativity).
Notation "c ;;; k" := (bind c (fun _ => k))
  (at level 61, right associativity).

Definition gets {A} (f : state -> A) : M A := fun st => Some (f st, st).
Definition modify (f : state -> state) : M unit := fun st => Some (tt, f st).

Definition log_access (ev : access) (st : state) : state :=
  mkState (sg st) (taring st) (calibrating st) (read_sg st) (slope st) (intercept st)
          (adc_pos st) (waited_ms st) (mem st) (bound st) (ev :: log st).

Definition write_cell (a : array_id) (i : Z) (v : float) (st : state) : state :=
  mkState (sg st) (taring st) (calibrating st) (read_sg st) (slope st) (intercept st)
          (adc_pos st) (waited_ms st)
          (fun a' i' => if array_id_eqb a a' && (i =? i') then v else mem st a' i')
          (bound st) (log st).

(** [a[i]] as an rvalue. *)
Definition load (a : array_id) (i : Z) : M float :=
  fun st => Some (mem st a i, log_access (Read a i) st).

(** [a[i] = v].  The access is logged with its index, within bounds or
    not; see the limit of the memory model at the head of the file. *)
Definition store (a : array_id) (i : Z) (v : float) : M unit :=
  modify (fun st => write_cell a i v (log_access (Write a i) st)).

(** [for (uint8_t i = i0; cond(i); i++) body], the counter wrapping at 256. *)
Fixpoint for_u8 {A} (fuel : nat) (cond : Z -> bool) (body : Z -> A -> M A)
    (i : Z) (acc : A) : M A :=
  match fuel with
  | O => fun _ => None
  | S fuel' =>
      if cond i
      then acc' <- body i acc ;; for_u8 fuel' cond body (u8 (i + 1)) acc'
      else ret acc
  end.

(** Does an access fall inside the declared extent of its array? *)
Definition in_bounds (st : state) (ev : access) : bool :=
  match ev with
  | Read a i | Write a i => (0 <=? i) && (i <? bound st a)
  end.

(** ** The driver (strain_gauge.c) *)

Record sums := mkSums {
  sumX : float;
  sumX2 : float;
  sumY : float;
  sumXY : float
}.

Section Driver.

(** The ADC collaborator: [adc k] is the voltage returned by the [k]-th
    call of [adc_read_voltage] (hx711_adc.h). *)
Variable adc : nat -> float.

Definition adc_read_voltage : M float :=
  fun st => Some (adc (adc_pos st), set_adc_pos (S (adc_pos st)) st).

(** [delay_ms(time)]: only the elapsed time is kept. *)
Definition delay_ms (time : Z) : M unit :=
  modify (fun st => set_waited_ms (waited_ms st + time) st).

(** [while(!read_sg) {}]: the loop is left once the timer interrupt of
    main.c has raised the flag; the interrupt is taken to arrive. *)
Definition wait_read_sg : M unit := modify (set_read_sg true).

(** Lines 45-48. *)
Definition strain_gauge_init (ve : float) (capacity : Z) (ro : float) : M unit :=
  modify (set_sg (mkStrainGauge (u16 capacity) ve ro (of_int 0))).

(** Line 63: [sense_voltage*(sg.capacity/(sg.VE*sg.RO))]. *)
Definition raw_kilograms (s : StrainGauge) (sense_voltage : float) : float :=
  mul sense_voltage (div (of_int (capacity s)) (mul (VE s) (RO s))).

(** Lines 73-76: the line of best fit, mirrored for readings that are
    not positive. *)
Definition best_fit (m b kilograms : float) : float :=
  if gt kilograms (of_int 0)
  then add (mul m kilograms) b
  else sub (mul m kilograms) b.

(** Lines 82-85: the tare offset. *)
Definition apply_offset (offs kilograms : float) : float :=
  if gt offs (of_int 0)
  then sub kilograms offs
  else add kilograms offs.

(** Lines 63-86 of [read_kgs], once the voltage has been read. *)
Definition kgs_of_voltage (st : state) (sense_voltage : float) : float :=
  let kilograms := raw_kilograms (sg st) sense_voltage in
  if calibrating st then kilograms
  else
    let kilograms := best_fit (slope st) (intercept st) kilograms in
    if taring st then kilograms
    else apply_offset (offset (sg st)) kilograms.

Definition read_kgs : M float :=
  sense_voltage <- adc_read_voltage ;;
  gets (fun st => kgs_of_voltage st sense_voltage).

Definition read_average (fuel : nat) (times : Z) : M float :=
  let times := u8 times in
  sum <- for_u8 fuel (fun i => i <? times)
           (fun _ sum =>
              wait_read_sg ;;;
              weight <- read_kgs ;;
              modify (set_read_sg false) ;;;
              ret (add sum weight))
           0 (of_int 0) ;;
  ret (div sum (of_int times)).

Definition strain_gauge_tare (fuel : nat) : M unit :=
  modify (set_taring true) ;;;
  tare_weight <- read_average fuel 15 ;;
  modify (fun st => set_sg (set_offset tare_weight (sg st)) st) ;;;
  modify (set_taring false).

(** One round of the summation loop, lines 211-214, each [x[i]] and
    [y[i]] read where it is written. *)
Definition sum_step (i : Z) (s : sums) : M sums :=
  a <- load x_arr i ;;
  let sX := add (sumX s) a in
  a1 <- load x_arr i ;;
  a2 <- load x_arr i ;;
  let sX2 := add (sumX2 s) (mul a1 a2) in
  b <- load y_arr i ;;
  let sY := add (sumY s) b in
  a3 <- load x_arr i ;;
  b1 <- load y_arr i ;;
  let sXY := add (sumXY s) (mul a3 b1) in
  ret (mkSums sX sX2 sY sXY).

(** The divisor of line 217. *)
Definition denominator (n : Z) (s : sums) : float :=
  sub (mul (of_int n) (sumX2 s)) (mul (sumX s) (sumX s)).

(** Lines 217-218: [m] and [b]. *)
Definition line_of (n : Z) (s : sums) : float * float :=
  let m := div (sub (mul (of_int n) (sumXY s)) (mul (sumX s) (sumY s)))
               (denominator n s) in
  let b := div (sub (sumY s) (mul m (sumX s))) (of_int n) in
  (m, b).

(** The pointer parameters [x], [y] and [equation] stand for the arrays
    [x_arr], [y_arr] and [equation_arr]. *)
Definition strain_gauge_calculate_equation (fuel : nat) (weight_cnt : Z) : M unit :=
  let weight_cnt := u8 weight_cnt in
  let n := u8 (weight_cnt + 1) in
  s <- for_u8 fuel (fun i => i <? n) sum_step 0
         (mkSums (of_int 0) (of_int 0) (of_int 0) (of_int 0)) ;;
  let '(m, b) := line_of n s in
  store equation_arr 0 m ;;;
  store equation_arr 1 b.

(** The pointer parameters [known_weights] and [equation] stand for the
    arrays [known_weights_arr] and [equation_arr]; [x] and [y] are the local
    arrays, whose cells hold whatever the memory held before.  The locals
    [m], [b], [n] and the four sums of lines 160-166 are never used. *)
Definition strain_gauge_calibrate (fuel : nat) (weight_cnt : Z) : M unit :=
  let weight_cnt := u8 weight_cnt in
  modify (set_calibrating true) ;;;
  (* float x[weight_cnt+1]; float y[weight_cnt+1]; *)
  modify (set_bound x_arr (weight_cnt + 1)) ;;;
  modify (set_bound y_arr (weight_cnt + 1)) ;;;
  store y_arr 0 (of_int 0) ;;;
  for_u8 fuel (fun i => i <=? weight_cnt)
    (fun i _ => w <- load known_weights_arr i ;; store y_arr (i + 1) w) 0 tt ;;;
  kilograms <- read_average fuel 20 ;;
  store x_arr 0 kilograms ;;;
  for_u8 fuel (fun i => i <=? weight_cnt)
    (fun i _ =>
       delay_ms 15000 ;;;
       kilograms <- read_average fuel 20 ;;
       store x_arr i kilograms) 1 tt ;;;
  strain_gauge_calculate_equation fuel (weight_cnt + 1).

Definition strain_gauge_set_equation (m b : float) : M unit :=
  modify (set_equation_fields m b).

End Driver.

(** ** Definitions used to state what the driver does *)

(** [total P c Q]: from every state satisfying [P] the computation [c]
    returns, and its result and final state satisfy [Q]. *)
Definition total {A} (P : state -> Prop) (c : M A) (Q : A -> state -> Prop) : Prop :=
  forall st, P st -> exists a st', c st = Some (a, st') /\ Q a st'.

(** The part of the state that is not array storage. *)
Definition globals (st : state) :=
  (sg st, taring st, calibrating st, slope st, intercept st, waited_ms st).

(** The sums of the fit over the points of indices [0 .. k-1], accumulated
    from index 0 upwards. *)
Definition sums0 : sums := mkSums (of_int 0) (of_int 0) (of_int 0) (of_int 0).

Definition sum_point (x y : Z -> float) (i : Z) (s : sums) : sums :=
  mkSums (add (sumX s) (x i))
         (add (sumX2 s) (mul (x i) (x i)))
         (add (sumY s) (y i))
         (add (sumXY s) (mul (x i) (y i))).

Fixpoint sums_upto (x y : Z -> float) (k : nat) : sums :=
  match k with
  | O => sums0
  | S k' => sum_point x y (Z.of_nat k') (sums_upto x y k')
  end.

(** Array accesses of round [i] of the summation loop, latest first. *)
Definition sum_reads (i : Z) : list access :=
  [Read y_arr i; Read x_arr i; Read y_arr i; Read x_arr i; Read x_arr i; Read x_arr i].

Fixpoint loop_log (k : nat) : list access :=
  match k with
  | O => []
  | S k' => sum_reads (Z.of_nat k') ++ loop_log k'
  end.

(** What holds from the first statements of [strain_gauge_calibrate] to
    its end: the flag is up and the two data arrays have [N + 1] cells. *)
Definition calib_inv (st0 : state) (N : Z) (s : state) : Prop :=
  calibrating s = true /\
  bound s x_arr = N + 1 /\ bound s y_arr = N + 1 /\
  bound s known_weights_arr = bound st0 known_weights_arr /\
  bound s equation_arr = bound st0 equation_arr.

(** [m] is a mantissa in canonical position at exponent [e]. *)
Definition good (m e : Z) : Prop :=
  0 <= m < 2 ^ 24 /\ -149 <= e /\ (e = -149 \/ 2 ^ 23 <= m).

(** ** Concrete configurations *)

(** An array holding [l], followed in memory by cells holding [rest]. *)
Definition cells (l : list float) (rest : float) (i : Z) : float :=
  if i <? 0 then rest else nth (Z.to_nat i) l rest.

Definition array_mem (kw xs ys : list float) (rest : float) : array_id -> Z -> float :=
  fun a => match a with
           | known_weights_arr => cells kw rest
           | x_arr => cells xs rest
           | y_arr => cells ys rest
           | equation_arr => fun _ => rest
           end.

Definition array_len (kw xs ys : list float) : array_id -> Z :=
  fun a => match a with
           | known_weights_arr => Z.of_nat (length kw)
           | x_arr => Z.of_nat (length xs)
           | y_arr => Z.of_nat (length ys)
           | equation_arr => 2
           end.

(** The program at start-up, with arrays [kw], [xs] and [ys] in memory. *)
Definition boot (kw xs ys : list float) : state :=
  initial_state (array_mem kw xs ys (of_int 0)) (array_len kw xs ys).

(** A 5 kg cell of 1 mV/V excited at 5 V: one kilogram per unit of signal. *)
Definition bench (kw xs ys : list float) : state :=
  set_sg (mkStrainGauge 5 (of_int 5) (of_int 1) (of_int 0)) (boot kw xs ys).

(** An ADC that always reads 1. *)
Definition steady_adc : nat -> float := fun _ => of_int 1.

(** The offset step as section 4.1 of the specification words it: subtract
    the offset when it is positive, add its absolute value otherwise. *)
Definition spec_offset_step (offs kilograms : float) : float :=
  if gt offs (of_int 0)
  then sub kilograms offs
  else add kilograms (SFabs offs).

(** ** The rest of the driver, and what its results are made of *)

(** C [double]: IEEE 754 binary64, used by [read_lbs] only. *)
Module F64.

Definition prec : Z := 53.
Definition emax : Z := 1024.

Definition double := spec_float.

Definition div : double -> double -> double := SFdiv prec emax.

End F64.

(** The conversion of a [float] operand to [double] (exact on every
    well-formed float). *)
Definition to_double (x : float) : F64.double :=
  match x with
  | S754_finite s m e => binary_round F64.prec F64.emax s m e
  | _ => x
  end.

(** The conversion of a [double] to [float], rounding to nearest even. *)
Definition of_double (x : F64.double) : float :=
  match x with
  | S754_finite s m e => binary_round F32.prec F32.emax s m e
  | _ => x
  end.

(** The constant [0.45359237] of line 98: the double nearest to it,
    [0x1.d07a84ab75e51p-2]. *)
Definition kg_per_lb : F64.double := S754_finite false 8171193714040401 (-54).

(** Line 98: [kgs/0.45359237], returned as a [float]. *)
Definition lbs_of_kgs (kgs : float) : float :=
  of_double (F64.div (to_double kgs) kg_per_lb).

Definition read_lbs (adc : nat -> float) : M float :=
  kgs <- read_kgs adc ;;
  ret (lbs_of_kgs kgs).

(** The sum that [read_average] builds in state [st] from the [k] samples
    that follow position [p] of the ADC, first sample first. *)
Fixpoint sum_samples (adc : nat -> float) (st : state) (p k : nat) : float :=
  match k with
  | O => of_int 0
  | S k' => add (sum_samples adc st p k') (kgs_of_voltage st (adc (p + k')%nat))
  end.

(** The same sum over raw conversions. *)
Fixpoint sum_raw (adc : nat -> float) (s : StrainGauge) (p k : nat) : float :=
  match k with
  | O => of_int 0
  | S k' => add (sum_raw adc s p k') (raw_kilograms s (adc (p + k')%nat))
  end.

(** The sign of a float; NaN has none. *)
Definition sign_of (x : float) : option bool :=
  match x with
  | S754_zero s | S754_infinity s | S754_finite s _ _ => Some s
  | S754_nan => None
  end.

(** The same number, zeros of either sign identified. *)
Definition same_number (x y : float) : Prop :=
  x = y \/ (is_zero x = true /\ is_zero y = true).

(** The average of the raw conversions of the 20 samples that follow
    position [p] of the ADC. *)
Definition raw_average (adc : nat -> float) (s : StrainGauge) (p : nat) : float :=
  div (sum_raw adc s p 20) (of_int 20).

(** What [strain_gauge_calibrate] keeps of state [st] while it runs: the flag
    up, the configuration, [taring] and the coefficients; [w] and [p] are
    the time waited and the position in the ADC. *)
Definition scalars (st : state) (w : Z) (p : nat) (s : state) : Prop :=
  calibrating s = true /\ sg s = sg st /\ taring s = taring st /\
  slope s = slope st /\ intercept s = intercept st /\
  waited_ms s = w /\ adc_pos s = p.

(** The accesses the fit may make when it takes [n] points. *)
Definition fit_access_ok (n : Z) (ev : access) : bool :=
  match ev with
  | Read x_arr j | Read y_arr j => (0 <=? j) && (j <? n)
  | Write equation_arr i => (i =? 0) || (i =? 1)
  | _ => false
  end.

(** The bench with the known weights 1 kg and 2 kg. *)
Definition two_weights : state := bench (map of_int [1; 2]) [] [].

(** An ADC whose second sample is not a number. *)
Definition glitch_adc : nat -> float :=
  fun k => match k with 1%nat => nan | _ => of_int 1 end.

(** ** Facts of binary32 arithmetic used by the driver *)

Section FloatFacts.

Lemma of_int_0 : of_int 0 = S754_zero false.
Proof. reflexivity. Qed.

Lemma of_int_1 : of_int 1 = S754_finite false 8388608 (-23).
Proof. reflexivity. Qed.

Lemma digits2_pos_shift23 (m : positive) :
  Zpos (digits2_pos (8388608 * m)) = Zpos (digits2_pos m) + 23.
Proof. cbn [Pos.mul digits2_pos]. lia. Qed.

(** Multiplying by 1 is exact on every well-formed float. *)
Lemma mul_one_l (x : float) : valid x = true -> mul one x = x.
Proof.
  destruct x as [s | s | | s m e]; try reflexivity.
  unfold valid, valid_binary, bounded, canonical_mantissa.
  intros H. apply andb_prop in H. destruct H as [Hc Hb].
  apply Z.eqb_eq in Hc.
  unfold mul, one. rewrite of_int_1. unfold SFmul.
  unfold binary_round_aux, shr_fexp.
  cbn [xorb Zdigits2].
  rewrite digits2_pos_shift23.
  replace (Z.pos (digits2_pos m) + 23 + (-23 + e)) with (Z.pos (digits2_pos m) + e) by lia.
  fold prec emax. rewrite Hc.
  replace (e - (-23 + e)) with 23 by lia.
  cbn [shr shr_record_of_loc iter_pos shr_1 Pos.mul orb shr_m loc_of_shr_record
       round_nearest_even Zdigits2].
  replace (-23 + e + 23) with e by lia.
  rewrite Hc, Z.sub_diag.
  cbn [shr shr_m].
  rewrite Hb. reflexivity.
Qed.

Lemma sub_zero_r (x : float) : sub x (S754_zero false) = x.
Proof. destruct x as [[] | [] | | s m e]; reflexivity. Qed.

Lemma add_zero_r (x : float) :
  x <> S754_zero true -> add x (S754_zero false) = x.
Proof. destruct x as [[] | [] | | s m e]; intros H; try reflexivity. congruence. Qed.

Lemma gt_zero_not_zero (x : float) :
  gt x (S754_zero false) = true -> is_zero x = false.
Proof. destruct x as [[] | [] | | s m e]; cbn; congruence. Qed.

(** Multiplying a finite float by zero gives a zero. *)
Lemma mul_zero_l (s : bool) (x : float) :
  is_finite x = true -> is_zero (mul (S754_zero s) x) = true.
Proof. destruct x; cbn; congruence. Qed.

Lemma mul_zero_l_not_finite (s : bool) (x : float) :
  is_finite x = false -> mul (S754_zero s) x = nan.
Proof. destruct x; cbn; intros H; try reflexivity; discriminate H. Qed.

(** Dividing by a zero never gives a finite float. *)
Lemma div_zero_not_finite (x d : float) :
  is_zero d = true -> is_finite (div x d) = false.
Proof. destruct d; cbn; try congruence. destruct x; reflexivity. Qed.

Lemma mul_not_finite_l (x y : float) :
  is_finite x = false -> is_finite (mul x y) = false.
Proof. destruct x; cbn; try congruence; destruct y; reflexivity. Qed.

Lemma mul_not_finite_r (x y : float) :
  is_finite y = false -> is_finite (mul x y) = false.
Proof. destruct y; cbn; try congruence; destruct x; reflexivity. Qed.

Lemma sub_not_finite_r (x y : float) :
  is_finite y = false -> is_finite (sub x y) = false.
Proof.
  destruct y as [| sy | |]; cbn; try congruence;
    destruct x as [| [] | |]; try destruct sy; reflexivity.
Qed.

Lemma div_not_finite_l (x y : float) :
  is_finite x = false -> is_finite (div x y) = false.
Proof. destruct x; cbn; try congruence; destruct y; reflexivity. Qed.

Lemma eqb_refl (x : float) : is_nan x = false -> eqb x x = true.
Proof.
  destruct x as [s | [] | | [] m e]; cbn; try congruence; intros _;
    unfold eqb, SFeqb, SFcompare; try reflexivity;
    rewrite Z.compare_refl, Pos.compare_cont_refl; reflexivity.
Qed.

Lemma digits2_pos_size (p : positive) : digits2_pos p = Pos.size p.
Proof. induction p as [p IH | p IH |]; cbn; congruence. Qed.

Lemma Zdigits2_log2 (z : Z) : 0 < z -> Zdigits2 z = Z.log2 z + 1.
Proof.
  destruct z as [| p | p]; try lia. intros _.
  cbn [Zdigits2]. rewrite digits2_pos_size.
  destruct p; cbn [Z.log2 Pos.size]; lia.
Qed.

Lemma iter_pos_nat {A} (f : A -> A) (p : positive) (x : A) :
  iter_pos f p x = Nat.iter (Pos.to_nat p) f x.
Proof.
  revert x. induction p as [p IH | p IH |]; intros x; cbn [iter_pos].
  - rewrite !IH, Pos2Nat.inj_xI.
    replace (S (2 * Pos.to_nat p)) with (Pos.to_nat p + S (Pos.to_nat p))%nat by lia.
    rewrite Nat.iter_add. f_equal. symmetry. apply Nat.iter_succ_r.
  - rewrite !IH, Pos2Nat.inj_xO.
    replace (2 * Pos.to_nat p)%nat with (Pos.to_nat p + Pos.to_nat p)%nat by lia.
    rewrite Nat.iter_add. reflexivity.
  - reflexivity.
Qed.

Lemma shr_1_m (mrs : shr_record) :
  0 <= shr_m mrs -> shr_m (shr_1 mrs) = Z.div2 (shr_m mrs).
Proof.
  destruct mrs as [m r s]. cbn [shr_m].
  destruct m as [| [p | p |] | p]; intros H; try reflexivity; lia.
Qed.

Lemma shr_iter_m (k : nat) (mrs : shr_record) :
  0 <= shr_m mrs ->
  shr_m (Nat.iter k shr_1 mrs) = Z.shiftr (shr_m mrs) (Z.of_nat k).
Proof.
  intros H. induction k as [| k IH].
  - cbn. reflexivity.
  - rewrite Nat.iter_succ, shr_1_m.
    + rewrite IH. rewrite Z.div2_spec, Z.shiftr_shiftr by lia. f_equal. lia.
    + rewrite IH. apply Z.shiftr_nonneg. exact H.
Qed.

Lemma fexp_eq (e : Z) : fexp prec emax e = Z.max (e - 24) (-149).
Proof. reflexivity. Qed.

Lemma shr_m_of_loc (m : Z) (l : location) : shr_m (shr_record_of_loc m l) = m.
Proof. destruct l as [| []]; reflexivity. Qed.

Lemma shr_fexp_spec (m e : Z) (l : location) :
  0 <= m ->
  shr_m (fst (shr_fexp prec emax m e l))
    = Z.shiftr m (Z.max 0 (fexp prec emax (Zdigits2 m + e) - e)) /\
  snd (shr_fexp prec emax m e l)
    = e + Z.max 0 (fexp prec emax (Zdigits2 m + e) - e).
Proof.
  intros Hm. unfold shr_fexp, shr.
  destruct (fexp prec emax (Zdigits2 m + e) - e) as [| p | p]; cbn [fst snd].
  - rewrite shr_m_of_loc, Z.shiftr_0_r. split; [reflexivity | lia].
  - rewrite iter_pos_nat, shr_iter_m, shr_m_of_loc, positive_nat_Z
      by (rewrite shr_m_of_loc; exact Hm).
    replace (Z.max 0 (Z.pos p)) with (Z.pos p) by lia. split; reflexivity.
  - rewrite shr_m_of_loc.
    replace (Z.max 0 (Z.neg p)) with 0 by lia.
    rewrite Z.shiftr_0_r. split; [reflexivity | lia].
Qed.

Lemma round_nearest_even_bounds (m : Z) (l : location) :
  m <= round_nearest_even m l <= m + 1.
Proof.
  destruct l as [| []]; cbn [round_nearest_even]; try lia.
  destruct (Z.even m); lia.
Qed.

Lemma first_shift_good (M E : Z) :
  0 <= M ->
  E <= fexp prec emax (Zdigits2 M + E) ->
  good (Z.shiftr M (Z.max 0 (fexp prec emax (Zdigits2 M + E) - E)))
       (E + Z.max 0 (fexp prec emax (Zdigits2 M + E) - E)).
Proof.
  intros HM0 HE.
  assert (HM : M = 0 \/ 0 < M) by lia. clear HM0.
  destruct HM as [-> | HM].
  { cbn [Zdigits2] in *. rewrite Z.shiftr_0_l. rewrite fexp_eq in *.
    unfold good. lia. }
  rewrite fexp_eq in *. rewrite Zdigits2_log2 in * by exact HM.
  set (L := Z.log2 M) in *.
  assert (HL : 0 <= L) by apply Z.log2_nonneg.
  set (n := Z.max 0 (Z.max (L + 1 + E - 24) (-149) - E)).
  assert (Hn : 0 <= n) by lia.
  assert (Hnn : 0 <= Z.shiftr M n) by (apply Z.shiftr_nonneg; lia).
  assert (Hcases : Z.shiftr M n = 0 \/ 0 < Z.shiftr M n) by lia.
  assert (Hlog : 0 < Z.shiftr M n -> Z.log2 (Z.shiftr M n) = Z.max 0 (L - n)).
  { intros _. apply Z.log2_shiftr. exact HM. }
  unfold good. split; [| split].
  - split; [exact Hnn |].
    destruct Hcases as [-> | Hpos]; [lia |].
    apply Z.log2_lt_pow2; [exact Hpos |]. rewrite (Hlog Hpos). lia.
  - lia.
  - destruct (Z.eq_dec (E + n) (-149)) as [He | He]; [left; exact He | right].
    assert (Hpos : 0 < Z.shiftr M n).
    { destruct Hcases as [H0 | Hpos]; [| exact Hpos].
      apply Z.shiftr_eq_0_iff in H0. fold L in H0. lia. }
    apply Z.log2_le_pow2; [exact Hpos |]. rewrite (Hlog Hpos). lia.
Qed.

Lemma second_shift_canonical (m1 e1 m2 : Z) :
  good m1 e1 ->
  m1 <= m2 <= m1 + 1 ->
  match shr_m (fst (shr_fexp prec emax m2 e1 loc_Exact)) with
  | Z0 => True
  | Zpos m3 =>
      canonical_mantissa prec emax m3 (snd (shr_fexp prec emax m2 e1 loc_Exact)) = true
  | Zneg _ => False
  end.
Proof.
  intros (Hm1 & He1 & Hn1) Hm2.
  destruct (shr_fexp_spec m2 e1 loc_Exact ltac:(lia)) as [-> ->].
  assert (Hc : m2 = 0 \/ (0 < m2 < 2 ^ 24) \/ m2 = 2 ^ 24) by lia.
  destruct Hc as [-> | [Hlt | ->]].
  - rewrite Z.shiftr_0_l. exact I.
  - rewrite fexp_eq, Zdigits2_log2 by lia.
    assert (Hl : Z.log2 m2 < 24) by (apply Z.log2_lt_pow2; lia).
    assert (Hl0 : 0 <= Z.log2 m2) by apply Z.log2_nonneg.
    replace (Z.max 0 (Z.max (Z.log2 m2 + 1 + e1 - 24) (-149) - e1)) with 0 by lia.
    rewrite Z.shiftr_0_r, Z.add_0_r.
    destruct m2 as [| p | p]; try lia.
    unfold canonical_mantissa. apply Z.eqb_eq.
    change (Z.pos (digits2_pos p)) with (Zdigits2 (Z.pos p)).
    rewrite fexp_eq, Zdigits2_log2 by lia.
    destruct Hn1 as [-> | Hge]; [lia |].
    assert (23 <= Z.log2 (Z.pos p)) by (apply Z.log2_le_pow2; lia).
    lia.
  - rewrite fexp_eq.
    change (Zdigits2 (2 ^ 24)) with 25.
    replace (Z.max 0 (Z.max (25 + e1 - 24) (-149) - e1)) with 1 by lia.
    change (Z.shiftr (2 ^ 24) 1) with (Z.pos 8388608).
    unfold canonical_mantissa. apply Z.eqb_eq.
    change (Z.pos (digits2_pos 8388608)) with 24.
    rewrite fexp_eq. lia.
Qed.

Lemma binary_round_aux_valid (s : bool) (M E : Z) (l : location) :
  0 <= M ->
  E <= fexp prec emax (Zdigits2 M + E) ->
  valid_binary prec emax (binary_round_aux prec emax s M E l) = true.
Proof.
  intros HM HE. unfold binary_round_aux.
  pose proof (shr_fexp_spec M E l ltac:(lia)) as [Hm1 He1].
  pose proof (first_shift_good M E HM HE) as Hgood.
  destruct (shr_fexp prec emax M E l) as [mrs1 e1]. cbn [fst snd] in Hm1, He1.
  rewrite <- Hm1, <- He1 in Hgood.
  pose proof (round_nearest_even_bounds (shr_m mrs1) (loc_of_shr_record mrs1)) as Hr.
  pose proof (second_shift_canonical _ _ _ Hgood Hr) as Hc.
  destruct (shr_fexp prec emax (round_nearest_even (shr_m mrs1) (loc_of_shr_record mrs1))
              e1 loc_Exact) as [mrs2 e2].
  cbn [fst snd] in Hc.
  destruct (shr_m mrs2) as [| m3 | m3]; [reflexivity | | contradiction].
  destruct (e2 <=? emax - prec) eqn:Hb; [| reflexivity].
  cbn [valid_binary]. unfold bounded. rewrite Hc, Hb. reflexivity.
Qed.

Lemma canonical_inv (m : positive) (e : Z) :
  canonical_mantissa prec emax m e = true ->
  Z.log2 (Z.pos m) + 1 <= 24 /\ -149 <= e /\
  (Z.log2 (Z.pos m) + 1 = 24 \/ e = -149).
Proof.
  unfold canonical_mantissa. intros H. apply Z.eqb_eq in H.
  change (Z.pos (digits2_pos m)) with (Zdigits2 (Z.pos m)) in H.
  rewrite fexp_eq, Zdigits2_log2 in H by lia. lia.
Qed.

Lemma mul_valid (x y : spec_float) :
  valid_binary prec emax x = true ->
  valid_binary prec emax y = true ->
  valid_binary prec emax (SFmul prec emax x y) = true.
Proof.
  destruct x as [sx | sx | | sx mx ex], y as [sy | sy | | sy my ey];
    try reflexivity.
  cbn [valid_binary SFmul]. unfold bounded.
  intros Hx Hy.
  apply andb_prop in Hx, Hy. destruct Hx as [Hx _], Hy as [Hy _].
  apply canonical_inv in Hx, Hy.
  apply binary_round_aux_valid; [lia |].
  rewrite fexp_eq, Zdigits2_log2 by lia.
  pose proof (Z.log2_mul_below (Z.pos mx) (Z.pos my) ltac:(lia) ltac:(lia)) as Hl.
  change (Z.pos (mx * my)) with (Z.pos mx * Z.pos my).
  pose proof (Z.log2_nonneg (Z.pos mx)). pose proof (Z.log2_nonneg (Z.pos my)).
  lia.
Qed.

Lemma quot_log2 (a b : Z) :
  0 < a -> 0 < b ->
  (0 < a / b -> Z.log2 a - Z.log2 b - 1 <= Z.log2 (a / b)) /\
  (a / b = 0 -> Z.log2 a <= Z.log2 b).
Proof.
  intros Ha Hb. split.
  - intros Hq.
    destruct (Z_lt_le_dec (Z.log2 a - Z.log2 b - 1) 0) as [Hk | Hk].
    { pose proof (Z.log2_nonneg (a / b)). lia. }
    apply Z.log2_le_pow2; [exact Hq |].
    apply Z.div_le_lower_bound; [exact Hb |].
    pose proof (Z.log2_spec a Ha) as [Hla _].
    pose proof (Z.log2_spec b Hb) as [_ Hlb].
    assert (Hp : 2 ^ Z.log2 a = 2 ^ (Z.log2 a - Z.log2 b - 1) * 2 ^ Z.succ (Z.log2 b)).
    { rewrite <- Z.pow_add_r by (pose proof (Z.log2_nonneg b); lia). f_equal. lia. }
    assert (0 < 2 ^ (Z.log2 a - Z.log2 b - 1)) by (apply Z.pow_pos_nonneg; lia).
    nia.
  - intros Hq. apply Z.log2_le_mono.
    apply Z.div_small_iff in Hq; lia.
Qed.

Lemma div_core_spec (m1 m2 : positive) (e1 e2 : Z) :
  let '(q, e, _) := SFdiv_core_binary prec emax (Z.pos m1) e1 (Z.pos m2) e2 in
  0 <= q /\ e <= fexp prec emax (Zdigits2 q + e).
Proof.
  unfold SFdiv_core_binary.
  set (X := Zdigits2 (Z.pos m1) + e1 - (Zdigits2 (Z.pos m2) + e2)).
  set (e := Z.min (fexp prec emax X) (e1 - e2)).
  assert (Hm : match e1 - e2 - e with
               | 0 => Z.pos m1
               | Z.pos _ => Z.shiftl (Z.pos m1) (e1 - e2 - e)
               | Z.neg _ => 0
               end = Z.shiftl (Z.pos m1) (e1 - e2 - e)).
  { assert (0 <= e1 - e2 - e) by lia.
    destruct (e1 - e2 - e) eqn:Hs; try reflexivity; lia. }
  rewrite Hm.
  set (a := Z.shiftl (Z.pos m1) (e1 - e2 - e)).
  assert (Ha : 0 < a).
  { unfold a. rewrite Z.shiftl_mul_pow2 by lia.
    apply Z.mul_pos_pos; [lia | apply Z.pow_pos_nonneg; lia]. }
  assert (Hla : Z.log2 a = Z.log2 (Z.pos m1) + (e1 - e2 - e)).
  { unfold a. apply Z.log2_shiftl; lia. }
  assert (Hde : Z.div_eucl a (Z.pos m2) = (a / Z.pos m2, a mod Z.pos m2)).
  { unfold Z.div, Z.modulo. destruct (Z.div_eucl a (Z.pos m2)); reflexivity. }
  rewrite Hde.
  assert (Hq : 0 <= a / Z.pos m2) by (apply Z.div_pos; lia).
  split; [exact Hq |].
  destruct (quot_log2 a (Z.pos m2) Ha ltac:(lia)) as [Hpos Hzero].
  assert (Hev : e = Z.min (Z.max (Z.log2 (Z.pos m1) + 1 + e1
                                    - (Z.log2 (Z.pos m2) + 1 + e2) - 24) (-149))
                          (e1 - e2)).
  { unfold e, X. rewrite fexp_eq, !Zdigits2_log2 by lia. reflexivity. }
  clearbody e. clear Hm Hde. clearbody a.
  rewrite fexp_eq.
  assert (Hc : a / Z.pos m2 = 0 \/ 0 < a / Z.pos m2) by lia.
  destruct Hc as [H0 | Hp].
  - rewrite H0. cbn [Zdigits2]. specialize (Hzero H0). lia.
  - rewrite Zdigits2_log2 by exact Hp. specialize (Hpos Hp). lia.
Qed.

Lemma div_valid (x y : spec_float) :
  valid_binary prec emax (SFdiv prec emax x y) = true.
Proof.
  destruct x as [sx | sx | | sx mx ex], y as [sy | sy | | sy my ey];
    try reflexivity.
  cbn [SFdiv].
  pose proof (div_core_spec mx my ex ey) as H.
  destruct (SFdiv_core_binary prec emax (Z.pos mx) ex (Z.pos my) ey) as [[q e] l].
  destruct H as [Hq He].
  apply binary_round_aux_valid; assumption.
Qed.

Lemma shl_align_spec (mx : positive) (ex ex' : Z) :
  let '(mz, ez) := shl_align mx ex ex' in
  Z.pos mz = Z.shiftl (Z.pos mx) (ex - ez) /\ ez = Z.min ex ex'.
Proof.
  unfold shl_align.
  destruct (ex' - ex) as [| d | d] eqn:Hd.
  - rewrite Z.sub_diag. split; [reflexivity | lia].
  - rewrite Z.sub_diag. split; [reflexivity | lia].
  - split; [| lia].
    replace (ex - ex') with (Z.pos d) by lia.
    cbn [Z.shiftl]. apply (Pos.iter_swap_gen _ _ Z.pos xO (Z.mul 2)).
    reflexivity.
Qed.

Lemma binary_round_valid (s : bool) (m : positive) (e : Z) :
  valid_binary prec emax (binary_round prec emax s m e) = true.
Proof.
  unfold binary_round.
  pose proof (shl_align_spec m e (fexp prec emax (Z.pos (digits2_pos m) + e))) as H.
  destruct (shl_align m e (fexp prec emax (Z.pos (digits2_pos m) + e))) as [mz ez].
  destruct H as [Hm He].
  apply binary_round_aux_valid; [lia |].
  rewrite Hm.
  change (Z.pos (digits2_pos m)) with (Zdigits2 (Z.pos m)) in He.
  rewrite fexp_eq, Zdigits2_log2 in * by lia.
  assert (Hs : 0 < Z.shiftl (Z.pos m) (e - ez)).
  { rewrite Z.shiftl_mul_pow2 by lia.
    apply Z.mul_pos_pos; [lia | apply Z.pow_pos_nonneg; lia]. }
  rewrite Z.log2_shiftl by lia. lia.
Qed.

Lemma binary_normalize_valid (m e : Z) (s : bool) :
  valid_binary prec emax (binary_normalize prec emax m e s) = true.
Proof. destruct m; [reflexivity | |]; apply binary_round_valid. Qed.

Lemma add_valid (x y : spec_float) :
  valid_binary prec emax x = true ->
  valid_binary prec emax y = true ->
  valid_binary prec emax (SFadd prec emax x y) = true.
Proof.
  destruct x as [[] | [] | | sx mx ex], y as [[] | [] | | sy my ey];
    intros Hx Hy; try reflexivity; try assumption.
  apply binary_normalize_valid.
Qed.

Lemma sub_valid (x y : spec_float) :
  valid_binary prec emax x = true ->
  valid_binary prec emax y = true ->
  valid_binary prec emax (SFsub prec emax x y) = true.
Proof.
  destruct x as [[] | [] | | sx mx ex], y as [[] | [] | | sy my ey];
    intros Hx Hy; try reflexivity; try assumption.
  apply binary_normalize_valid.
Qed.

(** Every operation returns a well-formed float. *)
Lemma valid_mul (x y : float) :
  valid x = true -> valid y = true -> valid (mul x y) = true.
Proof. apply mul_valid. Qed.

Lemma valid_div (x y : float) : valid (div x y) = true.
Proof. apply div_valid. Qed.

Lemma valid_of_int (z : Z) : valid (of_int z) = true.
Proof. apply binary_normalize_valid. Qed.

Lemma add_zero_l (x : float) :
  x <> S754_zero true -> add (S754_zero false) x = x.
Proof. destruct x as [[] | [] | | s m e]; intros H; try reflexivity. congruence. Qed.

Lemma sub_finite_same (s : bool) (m : positive) (e : Z) :
  sub (S754_finite s m e) (S754_finite s m e) = S754_zero false.
Proof. unfold sub, SFsub. rewrite Z.sub_diag. reflexivity. Qed.

Lemma sub_nan_r (x : float) : sub x nan = nan.
Proof. destruct x; reflexivity. Qed.

(** [1 * (0 + r) - r] is a zero, or NaN when [r] is not finite. *)
Lemma one_times_sum (r : float) :
  valid r = true ->
  zero_or_nan (sub (mul one (add (S754_zero false) r)) r) = true.
Proof.
  destruct r as [[] | [] | | s m e]; intros Hv; try reflexivity.
  change (add (S754_zero false) (S754_finite s m e)) with (S754_finite s m e).
  rewrite (mul_one_l _ Hv), sub_finite_same. reflexivity.
Qed.

Lemma div_zero_or_nan (x y : float) :
  zero_or_nan x = true -> zero_or_nan y = true -> div x y = nan.
Proof.
  destruct x, y; cbn; intros Hx Hy; try reflexivity; discriminate.
Qed.

End FloatFacts.

(** ** Total correctness of monadic computations *)

Section Logic.

Context {A B : Type}.

Lemma total_ret (P : state -> Prop) (a : A) (Q : A -> state -> Prop) :
  (forall st, P st -> Q a st) -> total P (ret a) Q.
Proof. intros H st HP. exists a, st. split; [reflexivity | auto]. Qed.

Lemma total_bind (P : state -> Prop) (c : M A) (k : A -> M B)
    (R : A -> state -> Prop) (Q : B -> state -> Prop) :
  total P c R ->
  (forall a, total (R a) (k a) Q) ->
  total P (bind c k) Q.
Proof.
  intros Hc Hk st HP.
  destruct (Hc st HP) as (a & st1 & E1 & HR).
  destruct (Hk a st1 HR) as (b & st2 & E2 & HQ).
  exists b, st2. split; [| exact HQ].
  unfold bind. rewrite E1. exact E2.
Qed.

Lemma total_consequence (P P' : state -> Prop) (c : M A) (Q Q' : A -> state -> Prop) :
  total P' c Q' ->
  (forall st, P st -> P' st) ->
  (forall a st, Q' a st -> Q a st) ->
  total P c Q.
Proof.
  intros Hc HP HQ st H.
  destruct (Hc st (HP st H)) as (a & st' & E & H').
  exists a, st'. auto.
Qed.

Lemma total_gets (P : state -> Prop) (f : state -> A) (Q : A -> state -> Prop) :
  (forall st, P st -> Q (f st) st) -> total P (gets f) Q.
Proof. intros H st HP. exists (f st), st. split; [reflexivity | auto]. Qed.

(** The loop rule: [n] is the first counter value at which the test
    fails, [I] the invariant, [k] the rounds still to run. *)
Lemma total_for_u8 (cond : Z -> bool) (body : Z -> A -> M A)
    (I : Z -> A -> state -> Prop) (n : Z) :
  0 <= n <= 255 ->
  cond n = false ->
  (forall i, 0 <= i < n -> cond i = true) ->
  (forall i acc, 0 <= i < n ->
     total (I i acc) (body i acc) (fun acc' st' => I (i + 1) acc' st')) ->
  forall (k : nat) (i : Z) (acc : A) (fuel : nat),
    0 <= i -> i + Z.of_nat k = n -> (k < fuel)%nat ->
    total (I i acc) (for_u8 fuel cond body i acc) (fun acc' st' => I n acc' st').
Proof.
  intros Hn Hstop Hgo Hbody k.
  induction k as [| k IH]; intros i acc fuel Hi Hk Hfuel.
  - assert (i = n) by lia. subst i.
    destruct fuel as [| fuel]; [lia |].
    cbn [for_u8]. rewrite Hstop.
    apply total_ret. auto.
  - destruct fuel as [| fuel]; [lia |].
    cbn [for_u8]. rewrite Hgo by lia.
    intros st HI.
    destruct (Hbody i acc ltac:(lia) st HI) as (acc1 & st1 & E1 & H1).
    assert (Hu : u8 (i + 1) = i + 1).
    { unfold u8. apply Z.mod_small. lia. }
    destruct (IH (i + 1) acc1 fuel ltac:(lia) ltac:(lia) ltac:(lia) st1 H1)
      as (acc2 & st2 & E2 & H2).
    exists acc2, st2. split; [| exact H2].
    unfold bind. rewrite E1, Hu. exact E2.
Qed.

End Logic.

Lemma bind_some {A B} (c : M A) (k : A -> M B) (st st1 : state) (a : A) :
  c st = Some (a, st1) -> bind c k st = k a st1.
Proof. intros E. unfold bind. rewrite E. reflexivity. Qed.

Lemma bind_none {A B} (c : M A) (k : A -> M B) (st : state) :
  c st = None -> bind c k st = None.
Proof. intros E. unfold bind. rewrite E. reflexivity. Qed.

Lemma total_modify (P : state -> Prop) (f : state -> state) (Q : unit -> state -> Prop) :
  (forall st, P st -> Q tt (f st)) -> total P (modify f) Q.
Proof. intros H st HP. exists tt, (f st). split; [reflexivity | auto]. Qed.

(** A loop whose counter can never fail the test runs out of any fuel. *)
Lemma for_u8_diverges {A} (cond : Z -> bool) (body : Z -> A -> M A) :
  (forall i, cond (u8 i) = true) ->
  forall fuel i acc st, for_u8 fuel cond body (u8 i) acc st = None.
Proof.
  intros Hc fuel. induction fuel as [| fuel IH]; intros i acc st.
  - reflexivity.
  - cbn [for_u8]. rewrite Hc. unfold bind.
    destruct (body (u8 i) acc st) as [[acc' st'] |]; [| reflexivity].
    apply IH.
Qed.

(** ** What the driver functions do *)

Lemma u8_range (z : Z) : 0 <= u8 z <= 255.
Proof. unfold u8. pose proof (Z.mod_pos_bound z 256 ltac:(lia)). lia. Qed.

Lemma u8_small (z : Z) : 0 <= z < 256 -> u8 z = z.
Proof. intros H. unfold u8. apply Z.mod_small. exact H. Qed.

Section DriverFacts.

Variable adc : nat -> float.

(** [read_kgs] reads one voltage and converts it. *)
Lemma read_kgs_eq (st : state) :
  read_kgs adc st
    = Some (kgs_of_voltage st (adc (adc_pos st)), set_adc_pos (S (adc_pos st)) st).
Proof. reflexivity. Qed.

(** [read_average] returns for every count, and touches nothing but the
    sample flag and the ADC position. *)
Lemma read_average_total (fuel : nat) (times : Z) (st : state) :
  (256 <= fuel)%nat ->
  exists v st',
    read_average adc fuel times st = Some (v, st') /\
    globals st' = globals st /\ mem st' = mem st /\
    bound st' = bound st /\ log st' = log st.
Proof.
  intros Hfuel. unfold read_average.
  pose proof (u8_range times) as Hr.
  set (I := fun (_ : Z) (_ : float) (s : state) =>
              globals s = globals st /\ mem s = mem st /\
              bound s = bound st /\ log s = log st).
  destruct (total_for_u8 (fun i => i <? u8 times)
              (fun _ sum =>
                 wait_read_sg ;;;
                 weight <- read_kgs adc ;;
                 modify (set_read_sg false) ;;;
                 ret (add sum weight))
              I (u8 times) Hr (Z.ltb_irrefl _)
              ltac:(intros i Hi; apply Z.ltb_lt; lia)
              ltac:(intros i acc Hi s Hs; eexists; eexists;
                    split; [reflexivity | exact Hs])
              (Z.to_nat (u8 times)) 0 (of_int 0) fuel
              ltac:(lia) ltac:(lia) ltac:(lia) st)
    as (sum & st' & E & HI).
  { unfold I. auto. }
  exists (div sum (of_int (u8 times))), st'.
  split; [| exact HI].
  cbv zeta. rewrite (bind_some _ _ _ _ _ E). reflexivity.
Qed.

(** The summation loop over [n] points. *)
Lemma sum_loop_total (n : Z) (fuel : nat) (st : state) :
  0 <= n <= 255 -> (256 <= fuel)%nat ->
  exists st',
    for_u8 fuel (fun i => i <? n) sum_step 0 sums0 st
      = Some (sums_upto (mem st x_arr) (mem st y_arr) (Z.to_nat n), st') /\
    globals st' = globals st /\ mem st' = mem st /\ bound st' = bound st /\
    adc_pos st' = adc_pos st /\
    log st' = loop_log (Z.to_nat n) ++ log st.
Proof.
  intros Hn Hfuel.
  set (I := fun (i : Z) (s : sums) (s1 : state) =>
              s = sums_upto (mem st x_arr) (mem st y_arr) (Z.to_nat i) /\
              globals s1 = globals st /\ mem s1 = mem st /\ bound s1 = bound st /\
              adc_pos s1 = adc_pos st /\
              log s1 = loop_log (Z.to_nat i) ++ log st).
  destruct (total_for_u8 (fun i => i <? n) sum_step I n Hn (Z.ltb_irrefl _)
              ltac:(intros i Hi; apply Z.ltb_lt; lia)) with
    (k := Z.to_nat n) (i := 0) (acc := sums0) (fuel := fuel) (st := st)
    as (s & st' & E & Hs & HI); try lia.
  - intros i acc Hi s1 (Hacc & Hg & Hm & Hb & Ha & Hl).
    eexists. eexists. split; [cbv [sum_step bind load ret log_access]; reflexivity |].
    unfold I. cbn [mem bound log adc_pos globals sg taring calibrating slope
                   intercept waited_ms sumX sumX2 sumY sumXY].
    replace (Z.to_nat (i + 1)) with (S (Z.to_nat i)) by lia.
    cbn [sums_upto loop_log]. rewrite Z2Nat.id by lia.
    rewrite Hm, Hl, <- Hacc.
    repeat split; auto.
  - unfold I. repeat split; reflexivity.
  - exists st'. rewrite E, Hs. split; [reflexivity | exact HI].
Qed.

Lemma loop_log_reads (k j : nat) :
  (j < k)%nat ->
  In (Read x_arr (Z.of_nat j)) (loop_log k) /\
  In (Read y_arr (Z.of_nat j)) (loop_log k).
Proof.
  induction k as [| k IH]; intros Hj; [lia |].
  cbn [loop_log].
  destruct (Nat.eq_dec j k) as [-> | Hne].
  - split; apply in_or_app; left; cbn; auto.
  - destruct (IH ltac:(lia)) as [Hx Hy].
    split; apply in_or_app; right; assumption.
Qed.

Lemma loop_log_only (k : nat) (ev : access) :
  In ev (loop_log k) ->
  exists j, (j < k)%nat /\
            (ev = Read x_arr (Z.of_nat j) \/ ev = Read y_arr (Z.of_nat j)).
Proof.
  induction k as [| k IH]; cbn [loop_log]; intros H; [contradiction |].
  apply in_app_or in H. destruct H as [H | H].
  - exists k. split; [lia |].
    cbn in H. intuition (subst; auto).
  - destruct (IH H) as (j & Hj & Hev). exists j. split; [lia | exact Hev].
Qed.

(** [strain_gauge_calculate_equation] returns for every count: it sums
    over the [n = weight_cnt + 1] (modulo 256) points of indices
    [0 .. n-1] and stores the two quotients of lines 217-218. *)
Lemma calculate_equation_total (fuel : nat) (weight_cnt : Z) (st : state) :
  (256 <= fuel)%nat ->
  let n := u8 (u8 weight_cnt + 1) in
  let s := sums_upto (mem st x_arr) (mem st y_arr) (Z.to_nat n) in
  exists st',
    strain_gauge_calculate_equation fuel weight_cnt st = Some (tt, st') /\
    mem st' equation_arr 0 = fst (line_of n s) /\
    mem st' equation_arr 1 = snd (line_of n s) /\
    globals st' = globals st /\ bound st' = bound st /\
    log st' = Write equation_arr 1 :: Write equation_arr 0
                :: loop_log (Z.to_nat n) ++ log st.
Proof.
  intros Hfuel n s.
  destruct (sum_loop_total n fuel st (u8_range _) Hfuel)
    as (st1 & E & Hg & Hm & Hb & Ha & Hl).
  unfold strain_gauge_calculate_equation. cbv zeta.
  fold n. fold sums0. rewrite (bind_some _ _ _ _ _ E). fold s.
  destruct (line_of n s) as [m b] eqn:El.
  eexists. split; [reflexivity |].
  cbn [mem bound log globals write_cell log_access sg taring calibrating slope
       intercept waited_ms array_id_eqb andb Z.eqb fst snd].
  rewrite Hl. repeat split; auto.
Qed.

Lemma calib_inv_frame (st0 : state) (N : Z) (s s' : state) :
  calib_inv st0 N s ->
  calibrating s' = calibrating s -> bound s' = bound s ->
  calib_inv st0 N s'.
Proof.
  unfold calib_inv. intros H Hc Hb. rewrite Hc, Hb. exact H.
Qed.

Lemma globals_calibrating (s s' : state) :
  globals s' = globals s -> calibrating s' = calibrating s.
Proof. unfold globals. intros H. congruence. Qed.

(** [strain_gauge_calibrate] returns whenever the weight count is below
    255, with the flag still up, after having indexed [known_weights] at
    [N] and [y] at [N + 1]. *)
Lemma calibrate_total (fuel : nat) (weight_cnt : Z) (st : state) :
  (256 <= fuel)%nat ->
  u8 weight_cnt < 255 ->
  exists st',
    strain_gauge_calibrate adc fuel weight_cnt st = Some (tt, st') /\
    calib_inv st (u8 weight_cnt) st' /\
    In (Read known_weights_arr (u8 weight_cnt)) (log st') /\
    In (Write y_arr (u8 weight_cnt + 1)) (log st') /\
    (u8 weight_cnt < 254 ->
     In (Read x_arr (u8 weight_cnt + 1)) (log st') /\
     In (Read y_arr (u8 weight_cnt + 1)) (log st')).
Proof.
  intros Hfuel HN.
  pose proof (u8_range weight_cnt) as Hr.
  set (N := u8 weight_cnt) in *.
  unfold strain_gauge_calibrate. cbv zeta. fold N.
  (* the statements before the copy loop *)
  set (st4 := write_cell y_arr 0 (of_int 0)
                (log_access (Write y_arr 0)
                   (set_bound y_arr (N + 1)
                      (set_bound x_arr (N + 1) (set_calibrating true st))))).
  assert (H4 : calib_inv st N st4).
  { unfold calib_inv. cbn. auto. }
  (* the copy loop *)
  set (I1 := fun (i : Z) (_ : unit) (s : state) =>
               calib_inv st N s /\
               (N < i -> In (Read known_weights_arr N) (log s) /\
                         In (Write y_arr (N + 1)) (log s))).
  destruct (total_for_u8 (fun i => i <=? N)
              (fun i _ => w <- load known_weights_arr i ;; store y_arr (i + 1) w)
              I1 (N + 1) ltac:(lia) ltac:(apply Z.leb_gt; lia)
              ltac:(intros i Hi; apply Z.leb_le; lia)) with
    (k := Z.to_nat (N + 1)) (i := 0) (acc := tt) (fuel := fuel) (st := st4)
    as ([] & st5 & E5 & H5 & Hin5); try lia.
  { intros i [] Hi s [Hinv Hlog].
    eexists. eexists. split; [reflexivity |].
    split.
    - eapply calib_inv_frame; [exact Hinv | reflexivity | reflexivity].
    - intros Hlt. cbn [log write_cell log_access].
      destruct (Z.eq_dec i N) as [-> | Hne].
      + split; cbn; auto.
      + destruct (Hlog ltac:(lia)) as [Ha Hb]. split; cbn; auto. }
  { split; [exact H4 | intros; lia]. }
  destruct (Hin5 ltac:(lia)) as [Hkw Hy].
  (* the zero-weight average *)
  destruct (read_average_total fuel 20 st5 Hfuel)
    as (v6 & st6 & E6 & Hg6 & Hm6 & Hb6 & Hl6).
  set (st7 := write_cell x_arr 0 v6 (log_access (Write x_arr 0) st6)).
  assert (H7 : calib_inv st N st7 /\
               In (Read known_weights_arr N) (log st7) /\
               In (Write y_arr (N + 1)) (log st7)).
  { split.
    - eapply calib_inv_frame; [exact H5 | | ].
      + cbn. apply globals_calibrating. exact Hg6.
      + cbn. exact Hb6.
    - cbn [st7 log write_cell log_access]. rewrite Hl6. cbn. auto. }
  (* one average per known weight *)
  set (I2 := fun (_ : Z) (_ : unit) (s : state) =>
               calib_inv st N s /\
               In (Read known_weights_arr N) (log s) /\
               In (Write y_arr (N + 1)) (log s)).
  destruct (total_for_u8 (fun i => i <=? N)
              (fun i _ =>
                 delay_ms 15000 ;;;
                 kilograms <- read_average adc fuel 20 ;;
                 store x_arr i kilograms)
              I2 (N + 1) ltac:(lia) ltac:(apply Z.leb_gt; lia)
              ltac:(intros i Hi; apply Z.leb_le; lia)) with
    (k := Z.to_nat N) (i := 1) (acc := tt) (fuel := fuel) (st := st7)
    as ([] & st8 & E8 & H8 & Hkw8 & Hy8); try lia.
  { intros i [] Hi s (Hinv & Ha & Hb).
    set (s1 := set_waited_ms (waited_ms s + 15000) s).
    destruct (read_average_total fuel 20 s1 Hfuel)
      as (v & s2 & E & Hg & Hm & Hbd & Hl).
    eexists. eexists. split.
    - unfold delay_ms. cbn [bind modify]. fold s1.
      rewrite (bind_some _ _ _ _ _ E). reflexivity.
    - split.
      + eapply calib_inv_frame; [exact Hinv | | ].
        * cbn. rewrite (globals_calibrating _ _ Hg). reflexivity.
        * cbn. rewrite Hbd. reflexivity.
      + cbn [log write_cell log_access]. rewrite Hl. cbn. auto. }
  { exact H7. }
  (* the fit *)
  destruct (calculate_equation_total fuel (N + 1) st8 Hfuel)
    as (st9 & E9 & _ & _ & Hg9 & Hb9 & Hl9).
  exists st9. split.
  - cbn [bind modify store]. fold st4.
    rewrite (bind_some _ _ _ _ _ E5).
    rewrite (bind_some _ _ _ _ _ E6).
    cbn [bind modify store]. fold st7.
    rewrite (bind_some _ _ _ _ _ E8).
    exact E9.
  - split; [| split; [| split]].
    + eapply calib_inv_frame; [exact H8 | | exact Hb9].
      apply globals_calibrating. exact Hg9.
    + rewrite Hl9. right. right. apply in_or_app. right. exact Hkw8.
    + rewrite Hl9. right. right. apply in_or_app. right. exact Hy8.
    + intros H254. rewrite Hl9.
      rewrite (u8_small (N + 1)) by lia.
      rewrite (u8_small (N + 1 + 1)) by lia.
      destruct (loop_log_reads (Z.to_nat (N + 1 + 1)) (Z.to_nat (N + 1)) ltac:(lia))
        as [Hx Hyy].
      rewrite Z2Nat.id in Hx, Hyy by lia.
      split; right; right; apply in_or_app; left; assumption.
Qed.

End DriverFacts.

(** ** The claims *)

(** C1 (the code departs from the claim).  Called with count [c] on arrays of
    [c] elements, the fit takes [n = c + 1]: it returns the quotients of
    lines 217-218 computed with [c + 1] for [n] over the [c + 1] points of
    indices [0 .. c], and so reads [x[c]] and [y[c]], one cell past each
    array. *)
Theorem fit_takes_one_point_past_count (fuel : nat) (c : Z) (st : state) :
  (256 <= fuel)%nat ->
  0 <= c < 255 ->
  bound st x_arr = c -> bound st y_arr = c ->
  exists st',
    strain_gauge_calculate_equation fuel c st = Some (tt, st') /\
    (mem st' equation_arr 0, mem st' equation_arr 1)
      = line_of (c + 1) (sums_upto (mem st x_arr) (mem st y_arr) (S (Z.to_nat c))) /\
    In (Read x_arr c) (log st') /\ in_bounds st' (Read x_arr c) = false /\
    In (Read y_arr c) (log st') /\ in_bounds st' (Read y_arr c) = false.
Proof.
  intros Hfuel Hc Hbx Hby.
  destruct (calculate_equation_total fuel c st Hfuel)
    as (st' & E & Hm & Hb & _ & Hbd & Hl).
  rewrite (u8_small c) in * by lia.
  rewrite (u8_small (c + 1)) in * by lia.
  replace (Z.to_nat (c + 1)) with (S (Z.to_nat c)) in * by lia.
  exists st'. split; [exact E |].
  destruct (loop_log_reads (S (Z.to_nat c)) (Z.to_nat c) ltac:(lia)) as [Hx Hy].
  rewrite Z2Nat.id in Hx, Hy by lia.
  split; [| repeat split].
  - rewrite Hm, Hb. symmetry. apply surjective_pairing.
  - rewrite Hl. right. right. apply in_or_app. left. exact Hx.
  - cbn. rewrite Hbd, Hbx, Z.ltb_irrefl. apply andb_false_r.
  - rewrite Hl. right. right. apply in_or_app. left. exact Hy.
  - cbn. rewrite Hbd, Hby, Z.ltb_irrefl. apply andb_false_r.
Qed.

(** The two points (0,2) and (1,5) of the line y = 3x + 2, count 2. *)
Lemma fit_takes_one_point_past_count_witness :
  exists st',
    strain_gauge_calculate_equation 256 2
      (boot [] (map of_int [0; 1]) (map of_int [2; 5])) = Some (tt, st') /\
    (mem st' equation_arr 0, mem st' equation_arr 1)
      = line_of (2 + 1)
          (sums_upto (mem (boot [] (map of_int [0; 1]) (map of_int [2; 5])) x_arr)
                     (mem (boot [] (map of_int [0; 1]) (map of_int [2; 5])) y_arr)
                     (S (Z.to_nat 2))) /\
    In (Read x_arr 2) (log st') /\ in_bounds st' (Read x_arr 2) = false /\
    In (Read y_arr 2) (log st') /\ in_bounds st' (Read y_arr 2) = false.
Proof.
  apply (fit_takes_one_point_past_count 256 2
           (boot [] (map of_int [0; 1]) (map of_int [2; 5])));
    [lia | lia | reflexivity | reflexivity].
Defined.

(** On those two points the fit answers with what lies behind the arrays:
    slope 4 and intercept 1 when the next cells hold zeros, and the line's
    own 3 and 2 only when they happen to hold its next point (2,8). *)
Example fit_of_two_line_points :
  option_map (fun r => (mem (snd r) equation_arr 0, mem (snd r) equation_arr 1))
    (strain_gauge_calculate_equation 256 2
       (boot [] (map of_int [0; 1]) (map of_int [2; 5])))
    = Some (of_int 4, of_int 1) /\
  option_map (fun r => (mem (snd r) equation_arr 0, mem (snd r) equation_arr 1))
    (strain_gauge_calculate_equation 256 2
       (boot [] (map of_int [0; 1; 2]) (map of_int [2; 5; 8])))
    = Some (of_int 3, of_int 2).
Proof. split; vm_compute; reflexivity. Qed.

(** C2 (counterexample).  On the bench cell, with the coefficients still at
    their initial values and no tare, a signal of 2 converts to 2 kg raw but
    the calibrated read returns 0. *)
Lemma default_coefficients_counterexample :
  calibrating (bench [] [] []) = false /\
  slope (bench [] [] []) = of_int 0 /\
  intercept (bench [] [] []) = of_int 0 /\
  raw_kilograms (sg (bench [] [] [])) (of_int 2) = of_int 2 /\
  kgs_of_voltage (bench [] [] []) (of_int 2) = of_int 0 /\
  eqb (kgs_of_voltage (bench [] [] []) (of_int 2))
      (raw_kilograms (sg (bench [] [] [])) (of_int 2)) = false.
Proof. repeat split; vm_compute; reflexivity. Qed.

(** C2 (amended).  While the coefficients are at their initial value {0, 0}
    and the offset is zero, the calibrated read outside calibration mode
    does not return the raw conversion: the raw value is multiplied by the
    slope 0, so the read is a zero for every sample whose raw conversion is
    finite, and NaN otherwise; it compares equal to the raw conversion only
    when the raw conversion is itself a zero. *)
Theorem default_coefficients_discard_reading (st : state) (v : float) :
  slope st = of_int 0 ->
  intercept st = of_int 0 ->
  offset (sg st) = of_int 0 ->
  calibrating st = false ->
  is_zero (kgs_of_voltage st v) = is_finite (raw_kilograms (sg st) v) /\
  is_nan (kgs_of_voltage st v) = negb (is_finite (raw_kilograms (sg st) v)) /\
  eqb (kgs_of_voltage st v) (raw_kilograms (sg st) v)
    = is_zero (raw_kilograms (sg st) v).
Proof.
  intros Hs Hi Ho Hc.
  unfold kgs_of_voltage, best_fit, apply_offset.
  rewrite Hs, Hi, Ho, Hc.
  destruct (raw_kilograms (sg st) v) as [[] | [] | | [] m e];
    destruct (taring st); repeat split; reflexivity.
Qed.

Lemma default_coefficients_discard_reading_witness :
  is_zero (kgs_of_voltage (bench [] [] []) (of_int 2))
    = is_finite (raw_kilograms (sg (bench [] [] [])) (of_int 2)) /\
  is_nan (kgs_of_voltage (bench [] [] []) (of_int 2))
    = negb (is_finite (raw_kilograms (sg (bench [] [] [])) (of_int 2))) /\
  eqb (kgs_of_voltage (bench [] [] []) (of_int 2))
      (raw_kilograms (sg (bench [] [] [])) (of_int 2))
    = is_zero (raw_kilograms (sg (bench [] [] [])) (of_int 2)).
Proof.
  apply (default_coefficients_discard_reading (bench [] [] []) (of_int 2));
    reflexivity.
Defined.

(** C3 (the code departs from the claim).  [strain_gauge_calibrate] raises
    [calibrating] and never lowers it: whenever it returns the flag is still
    up, and a later read returns the raw conversion whatever coefficients
    are then set. *)
Theorem calibrate_leaves_flag_up (adc : nat -> float) (fuel : nat)
    (weight_cnt : Z) (st : state) :
  (256 <= fuel)%nat ->
  1 <= weight_cnt < 255 ->
  exists st',
    strain_gauge_calibrate adc fuel weight_cnt st = Some (tt, st') /\
    calibrating st' = true /\
    forall m b v : float,
      option_map (fun r => kgs_of_voltage (snd r) v)
                 (strain_gauge_set_equation m b st')
        = Some (raw_kilograms (sg st') v).
Proof.
  intros Hfuel HN.
  destruct (calibrate_total adc fuel weight_cnt st Hfuel)
    as (st' & E & (Hc & _) & _).
  { rewrite u8_small; lia. }
  exists st'. split; [exact E |]. split; [exact Hc |].
  intros m b v. cbn [strain_gauge_set_equation modify option_map snd].
  unfold kgs_of_voltage. cbn [calibrating sg set_equation_fields].
  rewrite Hc. reflexivity.
Qed.

Lemma calibrate_leaves_flag_up_witness :
  exists st',
    strain_gauge_calibrate steady_adc 256 1 (bench [of_int 1] [] []) = Some (tt, st') /\
    calibrating st' = true /\
    forall m b v : float,
      option_map (fun r => kgs_of_voltage (snd r) v)
                 (strain_gauge_set_equation m b st')
        = Some (raw_kilograms (sg st') v).
Proof.
  apply (calibrate_leaves_flag_up steady_adc 256 1 (bench [of_int 1] [] [])); lia.
Defined.

(** With 255 known weights the copy loop of line 167 cannot end: its
    [uint8_t] counter never exceeds 255. *)
Lemma calibrate_255_diverges (adc : nat -> float) (fuel : nat) (st : state) :
  strain_gauge_calibrate adc fuel 255 st = None.
Proof.
  unfold strain_gauge_calibrate. cbv zeta.
  cbn [bind modify store].
  apply bind_none.
  refine (for_u8_diverges (fun i => i <=? u8 255)
            (fun i _ => w <- load known_weights_arr i ;; store y_arr (i + 1) w)
            _ fuel 0 tt _).
  intros i. apply Z.leb_le. pose proof (u8_range i). cbn. lia.
Qed.

(** C4 (counterexample).  On the three points (1,1), (1,2), (1,3), whose x
    values are all 1, the fit reports nothing: it returns, and both
    coefficients it stores are NaN. *)
Lemma degenerate_fit_counterexample :
  option_map (fun r => (mem (snd r) equation_arr 0, mem (snd r) equation_arr 1))
    (strain_gauge_calculate_equation 256 2
       (boot [] (map of_int [1; 1; 1]) (map of_int [1; 2; 3])))
    = Some (nan, nan).
Proof. vm_compute. reflexivity. Qed.

(** C4 (amended).  The fit has no degenerate case: whenever the divisor
    [n*sumX2 - sumX*sumX] evaluates to zero, as it does when all x are 1,
    the division of line 217 is carried out all the same and neither stored
    coefficient is a finite number (each is NaN or an infinity). *)
Theorem degenerate_fit_not_finite (fuel : nat) (weight_cnt : Z) (st : state) :
  (256 <= fuel)%nat ->
  is_zero (denominator (u8 (u8 weight_cnt + 1))
             (sums_upto (mem st x_arr) (mem st y_arr)
                        (Z.to_nat (u8 (u8 weight_cnt + 1))))) = true ->
  exists st',
    strain_gauge_calculate_equation fuel weight_cnt st = Some (tt, st') /\
    is_finite (mem st' equation_arr 0) = false /\
    is_finite (mem st' equation_arr 1) = false.
Proof.
  intros Hfuel Hden.
  destruct (calculate_equation_total fuel weight_cnt st Hfuel)
    as (st' & E & Hm & Hb & _).
  exists st'. split; [exact E |].
  rewrite Hm, Hb. unfold line_of. cbn [fst snd].
  split.
  - apply div_zero_not_finite. exact Hden.
  - apply div_not_finite_l, sub_not_finite_r, mul_not_finite_l,
      div_zero_not_finite. exact Hden.
Qed.

Lemma degenerate_fit_not_finite_witness :
  exists st',
    strain_gauge_calculate_equation 256 2
      (boot [] (map of_int [1; 1; 1]) (map of_int [1; 2; 3])) = Some (tt, st') /\
    is_finite (mem st' equation_arr 0) = false /\
    is_finite (mem st' equation_arr 1) = false.
Proof.
  apply (degenerate_fit_not_finite 256 2
           (boot [] (map of_int [1; 1; 1]) (map of_int [1; 2; 3])));
    [lia | vm_compute; reflexivity].
Defined.

(** The sums of a single point, and the two operands of the division of
    line 217 for it. *)
Lemma single_point_denominator (x0 : float) :
  valid x0 = true ->
  zero_or_nan (sub (mul (of_int 1) (add (of_int 0) (mul x0 x0)))
                   (mul (add (of_int 0) x0) (add (of_int 0) x0))) = true.
Proof.
  intros Hx. rewrite of_int_0. fold one.
  destruct x0 as [[] | sx | | sx mx ex] eqn:Ex; try reflexivity;
    try (destruct sx; reflexivity).
  rewrite <- Ex in *.
  rewrite (add_zero_l x0) by (rewrite Ex; discriminate).
  apply one_times_sum. apply valid_mul; exact Hx.
Qed.

Lemma single_point_numerator (x0 y0 : float) :
  valid x0 = true -> valid y0 = true ->
  zero_or_nan (sub (mul (of_int 1) (add (of_int 0) (mul x0 y0)))
                   (mul (add (of_int 0) x0) (add (of_int 0) y0))) = true.
Proof.
  intros Hx Hy. rewrite of_int_0. fold one.
  destruct x0 as [[] | sx | | sx mx ex] eqn:Ex;
    try (destruct y0 as [[] | [] | | [] my ey]; reflexivity);
    try (destruct sx; destruct y0 as [[] | [] | | [] my ey]; reflexivity);
    (destruct y0 as [[] | sy | | sy my ey] eqn:Ey;
     try reflexivity; try (destruct sx; reflexivity);
     try (destruct sx, sy; reflexivity)).
  all: rewrite <- Ex, <- Ey in *.
  all: rewrite (add_zero_l x0) by (rewrite Ex; discriminate).
  all: rewrite (add_zero_l y0) by (rewrite Ey; discriminate).
  all: apply one_times_sum; apply valid_mul; assumption.
Qed.

(** C5 (counterexample).  With count 0 the fit takes the single point (1,2),
    returns, and stores NaN twice; with count 1 on arrays of one element it
    takes (1,2) and the cells behind it, and stores slope 2, intercept 0. *)
Lemma small_fit_counterexample :
  option_map (fun r => (mem (snd r) equation_arr 0, mem (snd r) equation_arr 1))
    (strain_gauge_calculate_equation 256 0 (boot [] [of_int 1] [of_int 2]))
    = Some (nan, nan) /\
  option_map (fun r => (mem (snd r) equation_arr 0, mem (snd r) equation_arr 1))
    (strain_gauge_calculate_equation 256 1 (boot [] [of_int 1] [of_int 2]))
    = Some (of_int 2, of_int 0).
Proof. split; vm_compute; reflexivity. Qed.

(** C5 (amended).  The fit checks no size: when its number of points
    [n = weight_cnt + 1] (modulo 256) is below 2 it still returns and stores
    two coefficients, and both are NaN, whatever the well-formed point
    [(x[0], y[0])] it is given. *)
Theorem fit_of_fewer_than_two_points (fuel : nat) (weight_cnt : Z) (st : state) :
  (256 <= fuel)%nat ->
  u8 (u8 weight_cnt + 1) < 2 ->
  valid (mem st x_arr 0) = true ->
  valid (mem st y_arr 0) = true ->
  exists st',
    strain_gauge_calculate_equation fuel weight_cnt st = Some (tt, st') /\
    mem st' equation_arr 0 = nan /\
    mem st' equation_arr 1 = nan.
Proof.
  intros Hfuel Hn Hx Hy.
  destruct (calculate_equation_total fuel weight_cnt st Hfuel)
    as (st' & E & Hm & Hb & _).
  exists st'. split; [exact E |].
  rewrite Hm, Hb. clear E Hm Hb.
  pose proof (u8_range (u8 weight_cnt + 1)) as Hr.
  assert (Hc : u8 (u8 weight_cnt + 1) = 0 \/ u8 (u8 weight_cnt + 1) = 1) by lia.
  destruct Hc as [-> | ->].
  - split; reflexivity.
  - change (Z.to_nat 1) with 1%nat.
    cbn [sums_upto Z.of_nat]. unfold line_of, denominator, sum_point, sums0.
    cbn [sumX sumX2 sumY sumXY fst snd].
    rewrite (div_zero_or_nan _ _ (single_point_numerator _ _ Hx Hy)
               (single_point_denominator _ Hx)).
    split; [reflexivity |].
    change (mul nan ?a) with nan. rewrite sub_nan_r. reflexivity.
Qed.

Lemma fit_of_fewer_than_two_points_witness :
  exists st',
    strain_gauge_calculate_equation 256 0 (boot [] [of_int 1] [of_int 2])
      = Some (tt, st') /\
    mem st' equation_arr 0 = nan /\
    mem st' equation_arr 1 = nan.
Proof.
  apply (fit_of_fewer_than_two_points 256 0 (boot [] [of_int 1] [of_int 2]));
    [lia | vm_compute; reflexivity | reflexivity | reflexivity].
Defined.

(** C6 (counterexample).  On the bench, [read_average(0)] returns: its
    result is NaN, the quotient of the empty sum by the count 0. *)
Lemma read_average_zero_counterexample :
  read_average steady_adc 256 0 (bench [] [] [])
    = Some (div (of_int 0) (of_int 0), bench [] [] []) /\
  div (of_int 0) (of_int 0) = nan.
Proof. split; vm_compute; reflexivity. Qed.

(** C6 (amended).  [read_average] called with a count of 0 does not fail:
    it takes no sample, leaves the state as it was and returns the float
    quotient of the zero sum by the zero count, which is NaN. *)
Theorem read_average_zero_is_nan (adc : nat -> float) (fuel : nat) (st : state) :
  read_average adc (S fuel) 0 st = Some (div (of_int 0) (of_int 0), st) /\
  div (of_int 0) (of_int 0) = nan.
Proof. split; reflexivity. Qed.

(** C7 (counterexample).  Initialisation with a zero excitation voltage and
    a negative rated output goes through, and the conversion that follows
    divides the capacity by their product: a signal of 1 reads as minus
    infinity. *)
Lemma init_counterexample :
  option_map (fun r => (VE (sg (snd r)), RO (sg (snd r)),
                        raw_kilograms (sg (snd r)) (of_int 1)))
    (strain_gauge_init (of_int 0) 5 (of_int (-1)) (boot [] [] []))
    = Some (of_int 0, of_int (-1), S754_infinity true).
Proof. vm_compute. reflexivity. Qed.

(** C7 (amended).  [strain_gauge_init] validates nothing: for every
    excitation voltage, capacity and rated output it returns, having stored
    the three values and set the offset to 0; and when the product of the
    voltage and the rated output is zero, no later conversion is finite. *)
Theorem init_accepts_every_configuration (ve : float) (cap : Z) (ro : float)
    (st : state) (v : float) :
  exists st',
    strain_gauge_init ve cap ro st = Some (tt, st') /\
    st' = set_sg (mkStrainGauge (u16 cap) ve ro (of_int 0)) st /\
    offset (sg st') = of_int 0 /\
    is_zero (mul ve ro) && is_finite (raw_kilograms (sg st') v) = false.
Proof.
  eexists. split; [reflexivity |]. split; [reflexivity |]. split; [reflexivity |].
  cbn [sg set_sg]. unfold raw_kilograms. cbn [capacity VE RO].
  destruct (is_zero (mul ve ro)) eqn:Hz; [| reflexivity].
  cbn [andb].
  apply mul_not_finite_r, div_zero_not_finite. exact Hz.
Qed.

(** C8 (the code departs from the claim).  Tared on the bench while the
    signal is steadily -1, with the identity line set, the driver stores the
    offset -1; the next read of the same signal then adds that offset and
    returns -2, where the offset step of the specification (add the
    absolute value) gives 0.  With a steady signal of +1 the read after
    taring is 0. *)
Theorem negative_offset_is_added :
  option_map (fun r => (offset (sg (snd r)), kgs_of_voltage (snd r) (of_int (-1))))
    (strain_gauge_tare (fun _ => of_int (-1)) 256
       (set_equation_fields (of_int 1) (of_int 0) (bench [] [] [])))
    = Some (of_int (-1), of_int (-2)) /\
  apply_offset (of_int (-1)) (of_int (-1)) = of_int (-2) /\
  spec_offset_step (of_int (-1)) (of_int (-1)) = of_int 0 /\
  option_map (fun r => (offset (sg (snd r)), kgs_of_voltage (snd r) (of_int 1)))
    (strain_gauge_tare (fun _ => of_int 1) 256
       (set_equation_fields (of_int 1) (of_int 0) (bench [] [] [])))
    = Some (of_int 1, of_int 0).
Proof. repeat split; vm_compute; reflexivity. Qed.

(** Whatever the values, an offset that is not positive is added as it is. *)
Lemma apply_offset_not_positive (offs kilograms : float) :
  gt offs (of_int 0) = false ->
  apply_offset offs kilograms = add kilograms offs.
Proof. intros H. unfold apply_offset. rewrite H. reflexivity. Qed.

(** C9.  Once [strain_gauge_set_equation(1, 0)] has been called and while
    the tare offset is zero, the calibrated read of every sample [v] (a
    well-formed float of either sign) is the raw conversion: the same float, except that a raw negative
    zero comes back as positive zero; so the two compare equal whenever the
    raw conversion is a number. *)
Theorem identity_line_reads_raw (st : state) (v : float) :
  offset (sg st) = of_int 0 ->
  valid v = true ->
  exists st',
    strain_gauge_set_equation (of_int 1) (of_int 0) st = Some (tt, st') /\
    (kgs_of_voltage st' v = raw_kilograms (sg st') v \/
     raw_kilograms (sg st') v = S754_zero true /\
     kgs_of_voltage st' v = S754_zero false) /\
    eqb (kgs_of_voltage st' v) (raw_kilograms (sg st') v)
      = negb (is_nan (raw_kilograms (sg st') v)).
Proof.
  intros Ho Hv0.
  assert (Hv : valid (raw_kilograms (sg st) v) = true).
  { unfold raw_kilograms. apply valid_mul; [exact Hv0 | apply valid_div]. }
  eexists. split; [reflexivity |].
  cbn [sg set_equation_fields].
  set (raw := raw_kilograms (sg st) v) in *.
  assert (Hk : kgs_of_voltage (set_equation_fields (of_int 1) (of_int 0) st) v = raw \/
               raw = S754_zero true /\
               kgs_of_voltage (set_equation_fields (of_int 1) (of_int 0) st) v
                 = S754_zero false).
  { unfold kgs_of_voltage.
    cbn [calibrating taring slope intercept sg set_equation_fields].
    fold raw.
    destruct (calibrating st); [left; reflexivity |].
    assert (Hb : best_fit (of_int 1) (of_int 0) raw = raw).
    { unfold best_fit. fold one. rewrite (mul_one_l raw Hv).
      rewrite of_int_0.
      destruct (gt raw (S754_zero false)) eqn:Hg.
      - apply add_zero_r. intros ->. discriminate Hg.
      - apply sub_zero_r. }
    rewrite Hb.
    destruct (taring st); [left; reflexivity |].
    unfold apply_offset. rewrite Ho, of_int_0.
    change (gt (S754_zero false) (S754_zero false)) with false. cbv iota.
    destruct raw as [[] | [] | | s m e]; auto. }
  split; [exact Hk |].
  destruct Hk as [-> | [Hr ->]].
  - destruct (is_nan raw) eqn:Hn.
    + destruct raw; try discriminate Hn. reflexivity.
    + apply eqb_refl. exact Hn.
  - rewrite Hr. reflexivity.
Qed.

Lemma identity_line_reads_raw_witness :
  exists st',
    strain_gauge_set_equation (of_int 1) (of_int 0) (bench [] [] []) = Some (tt, st') /\
    (kgs_of_voltage st' (of_int (-3)) = raw_kilograms (sg st') (of_int (-3)) \/
     raw_kilograms (sg st') (of_int (-3)) = S754_zero true /\
     kgs_of_voltage st' (of_int (-3)) = S754_zero false) /\
    eqb (kgs_of_voltage st' (of_int (-3))) (raw_kilograms (sg st') (of_int (-3)))
      = negb (is_nan (raw_kilograms (sg st') (of_int (-3)))).
Proof.
  apply (identity_line_reads_raw (bench [] [] []) (of_int (-3)));
    vm_compute; reflexivity.
Defined.

(** C10 (the code departs from the claim).  For [N] known weights held in an
    array of [N] elements, [strain_gauge_calibrate] returns after having
    read [known_weights[N]] and written [y[N + 1]] in its copy loop, and
    after its call of the fit has read [x[N + 1]] and [y[N + 1]]: each of
    these lies outside its array ([known_weights] has [N] elements, [x] and
    [y] have [N + 1]). *)
Theorem calibration_indexes_past_the_arrays (adc : nat -> float) (fuel : nat)
    (N : Z) (st : state) :
  (256 <= fuel)%nat ->
  1 <= N < 254 ->
  bound st known_weights_arr = N ->
  exists st',
    strain_gauge_calibrate adc fuel N st = Some (tt, st') /\
    bound st' known_weights_arr = N /\
    bound st' x_arr = N + 1 /\ bound st' y_arr = N + 1 /\
    (In (Read known_weights_arr N) (log st') /\
     in_bounds st' (Read known_weights_arr N) = false) /\
    (In (Write y_arr (N + 1)) (log st') /\
     in_bounds st' (Write y_arr (N + 1)) = false) /\
    (In (Read x_arr (N + 1)) (log st') /\
     in_bounds st' (Read x_arr (N + 1)) = false) /\
    (In (Read y_arr (N + 1)) (log st') /\
     in_bounds st' (Read y_arr (N + 1)) = false).
Proof.
  intros Hfuel HN Hkw.
  destruct (calibrate_total adc fuel N st Hfuel)
    as (st' & E & (_ & Hbx & Hby & Hbk & _) & Hr & Hw & Hfit).
  { rewrite u8_small; lia. }
  rewrite (u8_small N) in * by lia.
  destruct (Hfit ltac:(lia)) as [Hx Hy].
  exists st'. split; [exact E |].
  rewrite Hkw in Hbk.
  repeat split; try assumption;
    cbn [in_bounds]; rewrite ?Hbk, ?Hbx, ?Hby;
    apply andb_false_iff; right; apply Z.ltb_ge; lia.
Qed.

Lemma calibration_indexes_past_the_arrays_witness :
  exists st',
    strain_gauge_calibrate steady_adc 256 1 (bench [of_int 1] [] []) = Some (tt, st') /\
    bound st' known_weights_arr = 1 /\
    bound st' x_arr = 1 + 1 /\ bound st' y_arr = 1 + 1 /\
    (In (Read known_weights_arr 1) (log st') /\
     in_bounds st' (Read known_weights_arr 1) = false) /\
    (In (Write y_arr (1 + 1)) (log st') /\
     in_bounds st' (Write y_arr (1 + 1)) = false) /\
    (In (Read x_arr (1 + 1)) (log st') /\
     in_bounds st' (Read x_arr (1 + 1)) = false) /\
    (In (Read y_arr (1 + 1)) (log st') /\
     in_bounds st' (Read y_arr (1 + 1)) = false).
Proof.
  apply (calibration_indexes_past_the_arrays steady_adc 256 1
           (bench [of_int 1] [] []));
    [lia | lia | reflexivity].
Defined.

(** ** Further properties of the driver *)

Section Sampling.

Variable adc : nat -> float.

Lemma kgs_of_voltage_globals (s st : state) (v : float) :
  globals s = globals st -> kgs_of_voltage s v = kgs_of_voltage st v.
Proof.
  unfold globals, kgs_of_voltage. intros H.
  injection H as Hsg Ht Hc Hs Hi _.
  rewrite Hsg, Ht, Hc, Hs, Hi. reflexivity.
Qed.

Lemma read_average_spec (fuel : nat) (times : Z) (st : state) :
  (256 <= fuel)%nat ->
  0 <= times < 256 ->
  exists st',
    read_average adc fuel times st
      = Some (div (sum_samples adc st (adc_pos st) (Z.to_nat times)) (of_int times),
              st') /\
    adc_pos st' = (adc_pos st + Z.to_nat times)%nat /\
    read_sg st' = (if times =? 0 then read_sg st else false) /\
    globals st' = globals st /\ mem st' = mem st /\
    bound st' = bound st /\ log st' = log st.
Proof.
  intros Hfuel Ht. unfold read_average. cbv zeta.
  rewrite (u8_small times Ht).
  set (I := fun (i : Z) (sum : float) (s : state) =>
              sum = sum_samples adc st (adc_pos st) (Z.to_nat i) /\
              adc_pos s = (adc_pos st + Z.to_nat i)%nat /\
              read_sg s = (if i =? 0 then read_sg st else false) /\
              globals s = globals st /\ mem s = mem st /\
              bound s = bound st /\ log s = log st).
  destruct (total_for_u8 (fun i => i <? times)
              (fun _ sum =>
                 wait_read_sg ;;;
                 weight <- read_kgs adc ;;
                 modify (set_read_sg false) ;;;
                 ret (add sum weight))
              I times ltac:(lia) (Z.ltb_irrefl _)
              ltac:(intros i Hi; apply Z.ltb_lt; lia)) with
    (k := Z.to_nat times) (i := 0) (acc := of_int 0) (fuel := fuel) (st := st)
    as (sum & st' & E & Hsum & HI); try lia.
  - intros i acc Hi s (Hacc & Hp & _ & Hg & Hm & Hb & Hl).
    eexists. eexists. split; [reflexivity |].
    unfold I. cbn [adc_pos read_sg mem bound log set_read_sg set_adc_pos].
    replace (Z.to_nat (i + 1)) with (S (Z.to_nat i)) by lia.
    cbn [sum_samples].
    replace (i + 1 =? 0) with false by (symmetry; apply Z.eqb_neq; lia).
    rewrite <- Hacc, <- Hp.
    repeat split; try assumption; try lia.
    f_equal. apply kgs_of_voltage_globals. exact Hg.
  - unfold I. cbn. repeat split; lia.
  - exists st'. rewrite (bind_some _ _ _ _ _ E), Hsum. split; [reflexivity | exact HI].
Qed.

Lemma add_nan_r (x : float) : add x nan = nan.
Proof. destruct x; reflexivity. Qed.

Lemma mul_nan_r (x : float) : mul x nan = nan.
Proof. destruct x; reflexivity. Qed.

(** A sample that is not a number converts to NaN in every mode of
    [read_kgs]: calibrating, taring or normal, whatever the coefficients and
    the offset. *)
Lemma kgs_of_voltage_nan (st : state) : kgs_of_voltage st nan = nan.
Proof.
  unfold kgs_of_voltage, raw_kilograms, best_fit, apply_offset.
  change (mul nan ?a) with nan.
  destruct (calibrating st); [reflexivity |].
  change (gt nan (of_int 0)) with false. cbv iota.
  rewrite mul_nan_r. change (sub nan ?a) with nan.
  destruct (taring st); [reflexivity |].
  destruct (gt (offset (sg st)) (of_int 0)); reflexivity.
Qed.

Lemma sum_samples_nan (st : state) (p j k : nat) :
  (j < k)%nat -> adc (p + j)%nat = nan -> sum_samples adc st p k = nan.
Proof.
  intros Hj Hn. induction k as [| k IH]; [lia |].
  cbn [sum_samples].
  destruct (Nat.eq_dec j k) as [<- | Hne].
  - rewrite Hn, kgs_of_voltage_nan. apply add_nan_r.
  - rewrite IH by lia. reflexivity.
Qed.

Lemma read_average_nan (fuel : nat) (times : Z) (st : state) (j : nat) :
  (256 <= fuel)%nat ->
  0 <= times < 256 ->
  (j < Z.to_nat times)%nat ->
  adc (adc_pos st + j)%nat = nan ->
  option_map fst (read_average adc fuel times st) = Some nan.
Proof.
  intros Hfuel Ht Hj Hn.
  destruct (read_average_spec fuel times st Hfuel Ht)
    as (st' & E & _).
  rewrite E. cbn [option_map fst].
  rewrite (sum_samples_nan st _ j _ Hj Hn). reflexivity.
Qed.

Lemma tare_spec (fuel : nat) (st : state) :
  (256 <= fuel)%nat ->
  exists st',
    strain_gauge_tare adc fuel st = Some (tt, st') /\
    taring st' = false /\
    sg st' = set_offset
               (div (sum_samples adc (set_taring true st) (adc_pos st) 15) (of_int 15))
               (sg st) /\
    adc_pos st' = (adc_pos st + 15)%nat /\
    read_sg st' = false /\
    calibrating st' = calibrating st /\
    slope st' = slope st /\ intercept st' = intercept st /\
    mem st' = mem st /\ log st' = log st.
Proof.
  intros Hfuel.
  destruct (read_average_spec fuel 15 (set_taring true st)
              Hfuel ltac:(lia))
    as (st1 & E & Hp & Hr & Hg & Hm & Hb & Hl).
  unfold strain_gauge_tare. cbn [bind modify].
  rewrite (bind_some _ _ _ _ _ E).
  eexists. split; [reflexivity |].
  cbn [taring sg adc_pos read_sg calibrating slope intercept mem log
       set_taring set_sg] in *.
  unfold globals in Hg. cbn [taring sg calibrating slope intercept waited_ms
                             set_taring] in Hg.
  injection Hg as Hsg _ Hc Hs Hi _.
  rewrite Hsg, Hp, Hr, Hc, Hs, Hi, Hm, Hl.
  repeat split; reflexivity.
Qed.

Lemma sum_samples_ext (s1 s2 : state) (p k : nat) :
  (forall v, kgs_of_voltage s1 v = kgs_of_voltage s2 v) ->
  sum_samples adc s1 p k = sum_samples adc s2 p k.
Proof.
  intros H. induction k as [| k IH]; [reflexivity |].
  cbn [sum_samples]. rewrite IH, H. reflexivity.
Qed.

Lemma kgs_of_voltage_taring_offset (st : state) (o v : float) :
  kgs_of_voltage (set_taring true (set_sg (set_offset o (sg st)) st)) v
    = kgs_of_voltage (set_taring true st) v.
Proof.
  unfold kgs_of_voltage, raw_kilograms.
  cbn [sg taring calibrating slope intercept set_sg set_taring set_offset
       capacity VE RO].
  reflexivity.
Qed.

Lemma sum_samples_calibrating (st : state) (p k : nat) :
  calibrating st = true ->
  sum_samples adc st p k = sum_raw adc (sg st) p k.
Proof.
  intros Hc. induction k as [| k IH]; [reflexivity |].
  cbn [sum_samples sum_raw]. rewrite IH. unfold kgs_of_voltage.
  rewrite Hc. reflexivity.
Qed.

Lemma tare_offset_independent (fuel : nat) (st : state) (o : float) :
  (256 <= fuel)%nat ->
  option_map (fun r => offset (sg (snd r)))
             (strain_gauge_tare adc fuel (set_sg (set_offset o (sg st)) st))
    = option_map (fun r => offset (sg (snd r))) (strain_gauge_tare adc fuel st).
Proof.
  intros Hfuel.
  destruct (tare_spec fuel st Hfuel) as (s1 & E1 & _ & Hsg1 & _).
  destruct (tare_spec fuel (set_sg (set_offset o (sg st)) st) Hfuel)
    as (s2 & E2 & _ & Hsg2 & _).
  rewrite E1, E2. cbn [option_map snd]. rewrite Hsg1, Hsg2.
  cbn [offset set_offset adc_pos set_sg].
  rewrite (sum_samples_ext
             (set_taring true (set_sg (set_offset o (sg st)) st))
             (set_taring true st) (adc_pos st) 15
             (kgs_of_voltage_taring_offset st o)).
  reflexivity.
Qed.

End Sampling.

Section OffsetStep.

Lemma add_negative_is_sub (k : float) (m : positive) (e : Z) :
  add k (S754_finite true m e) = sub k (S754_finite false m e).
Proof.
  destruct k as [[] | [] | | sk mk ek]; [reflexivity .. |].
  unfold add, sub, SFadd, SFsub. cbn [cond_Zopp].
  rewrite Z.add_opp_r. reflexivity.
Qed.

Lemma add_neg_inf_is_sub (k : float) :
  add k (S754_infinity true) = sub k (S754_infinity false).
Proof. destruct k as [[] | [] | | sk mk ek]; reflexivity. Qed.

Lemma apply_offset_opp (offs kilograms : float) :
  is_zero offs = false ->
  apply_offset (SFopp offs) kilograms = apply_offset offs kilograms.
Proof.
  intros Hz. unfold apply_offset. rewrite of_int_0.
  destruct offs as [s | [] | | [] m e]; cbn [SFopp negb].
  - discriminate Hz.
  - change (gt (S754_infinity true) (S754_zero false)) with false.
    change (gt (S754_infinity false) (S754_zero false)) with true.
    cbv iota. symmetry. apply add_neg_inf_is_sub.
  - change (gt (S754_infinity true) (S754_zero false)) with false.
    change (gt (S754_infinity false) (S754_zero false)) with true.
    cbv iota. apply add_neg_inf_is_sub.
  - reflexivity.
  - change (gt (S754_finite true m e) (S754_zero false)) with false.
    change (gt (S754_finite false m e) (S754_zero false)) with true.
    cbv iota. symmetry. apply add_negative_is_sub.
  - change (gt (S754_finite true m e) (S754_zero false)) with false.
    change (gt (S754_finite false m e) (S754_zero false)) with true.
    cbv iota. apply add_negative_is_sub.
Qed.

End OffsetStep.

(** *** Memory cells and the fit *)

Lemma mem_write_cell (a : array_id) (i : Z) (v : float) (s : state) (a' : array_id) (i' : Z) :
  mem (write_cell a i v s) a' i'
    = if array_id_eqb a a' && (i =? i') then v else mem s a' i'.
Proof. reflexivity. Qed.

Lemma array_id_eqb_eq (a b : array_id) : array_id_eqb a b = true <-> a = b.
Proof. destruct a, b; cbn; split; congruence. Qed.

Lemma mem_write_same (a : array_id) (i : Z) (v : float) (s : state) :
  mem (write_cell a i v s) a i = v.
Proof.
  rewrite mem_write_cell, Z.eqb_refl.
  replace (array_id_eqb a a) with true by (symmetry; apply array_id_eqb_eq; reflexivity).
  reflexivity.
Qed.

Lemma mem_write_other (a : array_id) (i : Z) (v : float) (s : state) (a' : array_id) (i' : Z) :
  a <> a' \/ i <> i' ->
  mem (write_cell a i v s) a' i' = mem s a' i'.
Proof.
  intros H. rewrite mem_write_cell.
  destruct (array_id_eqb a a') eqn:Ea; [| reflexivity].
  destruct (i =? i') eqn:Ei; [| reflexivity].
  apply array_id_eqb_eq in Ea. apply Z.eqb_eq in Ei. destruct H; contradiction.
Qed.

Lemma sums_upto_ext (x1 y1 x2 y2 : Z -> float) (k : nat) :
  (forall i, 0 <= i < Z.of_nat k -> x1 i = x2 i /\ y1 i = y2 i) ->
  sums_upto x1 y1 k = sums_upto x2 y2 k.
Proof.
  induction k as [| k IH]; intros H; [reflexivity |].
  cbn [sums_upto]. rewrite IH by (intros i Hi; apply H; lia).
  unfold sum_point.
  destruct (H (Z.of_nat k) ltac:(lia)) as [-> ->]. reflexivity.
Qed.

(** The fit, with the memory it leaves. *)
Lemma calculate_equation_mem (fuel : nat) (weight_cnt : Z) (st : state) :
  (256 <= fuel)%nat ->
  exists st',
    strain_gauge_calculate_equation fuel weight_cnt st = Some (tt, st') /\
    (forall a i, mem st' a i =
       if array_id_eqb equation_arr a && (1 =? i)
       then snd (line_of (u8 (u8 weight_cnt + 1))
                   (sums_upto (mem st x_arr) (mem st y_arr)
                      (Z.to_nat (u8 (u8 weight_cnt + 1)))))
       else if array_id_eqb equation_arr a && (0 =? i)
       then fst (line_of (u8 (u8 weight_cnt + 1))
                   (sums_upto (mem st x_arr) (mem st y_arr)
                      (Z.to_nat (u8 (u8 weight_cnt + 1)))))
       else mem st a i) /\
    globals st' = globals st /\ bound st' = bound st /\
    adc_pos st' = adc_pos st /\
    log st' = Write equation_arr 1 :: Write equation_arr 0
                :: loop_log (Z.to_nat (u8 (u8 weight_cnt + 1))) ++ log st.
Proof.
  intros Hfuel.
  set (n := u8 (u8 weight_cnt + 1)).
  destruct (sum_loop_total n fuel st (u8_range _) Hfuel)
    as (st1 & E & Hg & Hm & Hb & Ha & Hl).
  unfold strain_gauge_calculate_equation. cbv zeta.
  fold n. fold sums0. rewrite (bind_some _ _ _ _ _ E).
  destruct (line_of n (sums_upto (mem st x_arr) (mem st y_arr) (Z.to_nat n)))
    as [m b] eqn:El.
  eexists. split; [reflexivity |].
  cbn [mem bound log globals write_cell log_access sg taring calibrating slope
       intercept waited_ms adc_pos fst snd].
  rewrite Hl, Hm. repeat split; auto.
Qed.

Section Calibration.

Variable adc : nat -> float.

Lemma read_average_calibrating (fuel : nat) (st s : state) (w : Z) (p : nat) :
  (256 <= fuel)%nat ->
  scalars st w p s ->
  exists s',
    read_average adc fuel 20 s = Some (raw_average adc (sg st) p, s') /\
    scalars st w (p + 20)%nat s' /\
    mem s' = mem s /\ bound s' = bound s /\ log s' = log s.
Proof.
  intros Hfuel (Hc & Hsg & Ht & Hs & Hi & Hw & Hp).
  destruct (read_average_spec adc fuel 20 s Hfuel ltac:(lia))
    as (s' & E & Hp' & _ & Hg & Hm & Hb & Hl).
  exists s'. split.
  - rewrite E. change (Z.to_nat 20) with 20%nat. 
    rewrite (sum_samples_calibrating adc s _ _ Hc), Hsg, Hp. unfold raw_average. reflexivity.
  - unfold globals in Hg. injection Hg as Hsg' Ht' Hc' Hs' Hi' Hw'.
    change (Z.to_nat 20) with 20%nat in Hp'. 
    unfold scalars. rewrite Hsg', Ht', Hc', Hs', Hi', Hw', Hp', Hp.
    repeat split; assumption.
Qed.

Lemma scalars_frame (st s s' : state) (w : Z) (p : nat) :
  scalars st w p s ->
  calibrating s' = calibrating s -> sg s' = sg s -> taring s' = taring s ->
  slope s' = slope s -> intercept s' = intercept s ->
  waited_ms s' = waited_ms s -> adc_pos s' = adc_pos s ->
  scalars st w p s'.
Proof.
  unfold scalars. intros H -> -> -> -> -> -> ->. exact H.
Qed.

Lemma calibrate_data (fuel : nat) (N : Z) (st : state) :
  (256 <= fuel)%nat ->
  0 <= N < 255 ->
  exists st',
    strain_gauge_calibrate adc fuel N st = Some (tt, st') /\
    (forall i, 0 <= i <= N ->
       mem st' x_arr i = raw_average adc (sg st) (adc_pos st + 20 * Z.to_nat i)) /\
    (forall i, ~ 0 <= i <= N -> mem st' x_arr i = mem st x_arr i) /\
    mem st' y_arr 0 = of_int 0 /\
    (forall i, 0 <= i <= N -> mem st' y_arr (i + 1) = mem st known_weights_arr i) /\
    (forall i, mem st' known_weights_arr i = mem st known_weights_arr i) /\
    scalars st (waited_ms st + 15000 * N)
            (adc_pos st + 20 * Z.to_nat (N + 1)) st' /\
    mem st' equation_arr 0
      = fst (line_of (u8 (N + 2))
               (sums_upto (mem st' x_arr) (mem st' y_arr) (Z.to_nat (u8 (N + 2))))) /\
    mem st' equation_arr 1
      = snd (line_of (u8 (N + 2))
               (sums_upto (mem st' x_arr) (mem st' y_arr) (Z.to_nat (u8 (N + 2))))).
Proof.
  intros Hfuel HN.
  unfold strain_gauge_calibrate. cbv zeta. rewrite (u8_small N) by lia.
  set (st4 := write_cell y_arr 0 (of_int 0)
                (log_access (Write y_arr 0)
                   (set_bound y_arr (N + 1)
                      (set_bound x_arr (N + 1) (set_calibrating true st))))).
  (* the copy loop *)
  set (J1 := fun (i : Z) (_ : unit) (s : state) =>
               scalars st (waited_ms st) (adc_pos st) s /\
               (forall a j, a <> y_arr -> mem s a j = mem st a j) /\
               mem s y_arr 0 = of_int 0 /\
               (forall j, 0 <= j < i -> mem s y_arr (j + 1) = mem st known_weights_arr j)).
  destruct (total_for_u8 (fun i => i <=? N)
              (fun i _ => w <- load known_weights_arr i ;; store y_arr (i + 1) w)
              J1 (N + 1) ltac:(lia) ltac:(apply Z.leb_gt; lia)
              ltac:(intros i Hi; apply Z.leb_le; lia)) with
    (k := Z.to_nat (N + 1)) (i := 0) (acc := tt) (fuel := fuel) (st := st4)
    as ([] & st5 & E5 & Hsc5 & Hoth5 & Hy05 & Hy5); try lia.
  { intros i [] Hi s (Hsc & Hoth & Hy0 & Hy).
    eexists. eexists. split; [reflexivity |].
    unfold J1. split; [| split; [| split]].
    - eapply scalars_frame; [exact Hsc | reflexivity ..].
    - intros a j Ha. cbn [mem write_cell log_access].
      destruct a; try contradiction; cbn [array_id_eqb andb]; apply Hoth; assumption.
    - cbn [mem write_cell log_access array_id_eqb andb].
      replace (i + 1 =? 0) with false by (symmetry; apply Z.eqb_neq; lia).
      exact Hy0.
    - intros j Hj. cbn [mem write_cell log_access array_id_eqb andb].
      destruct (Z.eq_dec j i) as [-> | Hne].
      + rewrite Z.eqb_refl. apply Hoth. discriminate.
      + replace (i + 1 =? j + 1) with false by (symmetry; apply Z.eqb_neq; lia).
        apply Hy. lia. }
  { unfold J1. split; [| split; [| split]].
    - unfold scalars. cbn. repeat split; reflexivity.
    - intros a j Ha. cbn [st4 mem write_cell log_access set_bound set_calibrating].
      destruct a; try contradiction; reflexivity.
    - reflexivity.
    - intros j Hj. lia. }
  (* the zero-weight average *)
  destruct (read_average_calibrating fuel st st5 _ _ Hfuel Hsc5)
    as (st6 & E6 & Hsc6 & Hm6 & _ & _).
  set (st7 := write_cell x_arr 0 (raw_average adc (sg st) (adc_pos st))
                (log_access (Write x_arr 0) st6)).
  (* one average per known weight *)
  set (J2 := fun (i : Z) (_ : unit) (s : state) =>
               scalars st (waited_ms st + 15000 * (i - 1))
                       (adc_pos st + 20 * Z.to_nat i) s /\
               (forall a j, a <> x_arr -> mem s a j = mem st5 a j) /\
               (forall j, 0 <= j < i ->
                  mem s x_arr j
                    = raw_average adc (sg st) (adc_pos st + 20 * Z.to_nat j)) /\
               (forall j, ~ 0 <= j < i -> mem s x_arr j = mem st x_arr j)).
  destruct (total_for_u8 (fun i => i <=? N)
              (fun i _ =>
                 delay_ms 15000 ;;;
                 kilograms <- read_average adc fuel 20 ;;
                 store x_arr i kilograms)
              J2 (N + 1) ltac:(lia) ltac:(apply Z.leb_gt; lia)
              ltac:(intros i Hi; apply Z.leb_le; lia)) with
    (k := Z.to_nat N) (i := 1) (acc := tt) (fuel := fuel) (st := st7)
    as ([] & st8 & E8 & Hsc8 & Hoth8 & Hx8 & Hxo8); try lia.
  { intros i [] Hi s (Hsc & Hoth & Hx & Hxo).
    set (s1 := set_waited_ms (waited_ms s + 15000) s).
    assert (Hsc1 : scalars st (waited_ms st + 15000 * i)
                           (adc_pos st + 20 * Z.to_nat i) s1).
    { destruct Hsc as (Hc & Hsg & Ht & Hs & Hi' & Hw & Hp).
      unfold scalars, s1.
      cbn [calibrating sg taring slope intercept waited_ms adc_pos set_waited_ms].
      repeat split; try assumption. lia. }
    destruct (read_average_calibrating fuel st s1 _ _ Hfuel Hsc1)
      as (s2 & E & Hsc2 & Hm2 & _ & _).
    eexists. eexists. split.
    - unfold delay_ms. cbn [bind modify]. fold s1.
      rewrite (bind_some _ _ _ _ _ E). reflexivity.
    - unfold J2. split; [| split; [| split]].
      + replace (i + 1 - 1) with i by lia.
        replace (adc_pos st + 20 * Z.to_nat (i + 1))%nat
          with (adc_pos st + 20 * Z.to_nat i + 20)%nat by lia.
        eapply scalars_frame; [exact Hsc2 | reflexivity ..].
      + intros a j Ha. cbn [mem write_cell log_access]. rewrite Hm2.
        destruct a; try contradiction; cbn [array_id_eqb andb s1 mem set_waited_ms];
          apply Hoth; assumption.
      + intros j Hj. cbn [mem write_cell log_access array_id_eqb andb]. rewrite Hm2.
        destruct (Z.eq_dec j i) as [-> | Hne].
        * rewrite Z.eqb_refl. reflexivity.
        * replace (i =? j) with false by (symmetry; apply Z.eqb_neq; lia).
          cbn [s1 mem set_waited_ms]. apply Hx. lia.
      + intros j Hj. cbn [mem write_cell log_access array_id_eqb andb]. rewrite Hm2.
        replace (i =? j) with false by (symmetry; apply Z.eqb_neq; lia).
        cbn [s1 mem set_waited_ms]. apply Hxo. lia. }
  { unfold J2. split; [| split; [| split]].
    - replace (waited_ms st + 15000 * (1 - 1)) with (waited_ms st) by lia.
      change (Z.to_nat 1) with 1%nat.
      replace (adc_pos st + 20 * 1)%nat with (adc_pos st + 20)%nat by lia.
      eapply scalars_frame; [exact Hsc6 | reflexivity ..].
    - intros a j Ha. cbn [st7 mem write_cell log_access]. rewrite Hm6.
      destruct a; try contradiction; reflexivity.
    - intros j Hj. assert (j = 0) by lia. subst j.
      cbn [st7 mem write_cell log_access array_id_eqb andb Z.eqb].
      change (Z.to_nat 0) with 0%nat.
      replace (adc_pos st + 20 * 0)%nat with (adc_pos st) by lia. reflexivity.
    - intros j Hj. cbn [st7 mem write_cell log_access array_id_eqb andb].
      replace (0 =? j) with false by (symmetry; apply Z.eqb_neq; lia).
      rewrite Hm6. apply Hoth5. discriminate. }
  (* the fit *)
  destruct (calculate_equation_mem fuel (N + 1) st8 Hfuel)
    as (st9 & E9 & Hm9 & Hg9 & _ & Ha9 & _).
  rewrite (u8_small (N + 1)) in Hm9 by lia.
  replace (N + 1 + 1) with (N + 2) in Hm9 by lia.
  exists st9. split.
  { cbn [bind modify store]. fold st4.
    rewrite (bind_some _ _ _ _ _ E5).
    rewrite (bind_some _ _ _ _ _ E6).
    cbn [bind modify store]. fold st7.
    rewrite (bind_some _ _ _ _ _ E8).
    exact E9. }
  assert (Hx9 : forall i, mem st9 x_arr i = mem st8 x_arr i).
  { intros i. rewrite Hm9. reflexivity. }
  assert (Hy9 : forall i, mem st9 y_arr i = mem st8 y_arr i).
  { intros i. rewrite Hm9. reflexivity. }
  assert (Hk9 : forall i, mem st9 known_weights_arr i = mem st8 known_weights_arr i).
  { intros i. rewrite Hm9. reflexivity. }
  assert (Hsums : sums_upto (mem st9 x_arr) (mem st9 y_arr) (Z.to_nat (u8 (N + 2)))
                  = sums_upto (mem st8 x_arr) (mem st8 y_arr) (Z.to_nat (u8 (N + 2)))).
  { apply sums_upto_ext. intros i _. split; [apply Hx9 | apply Hy9]. }
  split; [| split; [| split; [| split; [| split; [| split; [| split]]]]]].
  - intros i Hi. rewrite Hx9. apply Hx8. lia.
  - intros i Hi. rewrite Hx9. apply Hxo8. lia.
  - rewrite Hy9, Hoth8 by discriminate. exact Hy05.
  - intros i Hi. rewrite Hy9, Hoth8 by discriminate. apply Hy5. lia.
  - intros i. rewrite Hk9, Hoth8 by discriminate. apply Hoth5. discriminate.
  - replace (N + 1 - 1) with N in Hsc8 by lia.
    unfold globals in Hg9. injection Hg9 as Hsg' Ht' Hc' Hs' Hi' Hw'.
    eapply scalars_frame; [exact Hsc8 | assumption ..].
  - rewrite Hsums, Hm9. reflexivity.
  - rewrite Hsums, Hm9. reflexivity.
Qed.

End Calibration.

(** *** Signs *)

Section Signs.

Variables p em : Z.

Lemma shr_fexp_m_nonneg (m e : Z) (l : location) :
  0 <= m -> 0 <= shr_m (fst (shr_fexp p em m e l)).
Proof.
  intros Hm. unfold shr_fexp, shr.
  destruct (fexp p em (Zdigits2 m + e) - e) as [| d | d]; cbn [fst].
  - rewrite shr_m_of_loc. exact Hm.
  - rewrite iter_pos_nat, shr_iter_m by (rewrite shr_m_of_loc; exact Hm).
    apply Z.shiftr_nonneg. rewrite shr_m_of_loc. exact Hm.
  - rewrite shr_m_of_loc. exact Hm.
Qed.

Lemma binary_round_aux_sign (s : bool) (m e : Z) (l : location) :
  0 <= m -> sign_of (binary_round_aux p em s m e l) = Some s.
Proof.
  intros Hm. unfold binary_round_aux.
  pose proof (shr_fexp_m_nonneg m e l Hm) as H1.
  destruct (shr_fexp p em m e l) as [mrs1 e1]. cbn [fst] in H1.
  pose proof (round_nearest_even_bounds (shr_m mrs1) (loc_of_shr_record mrs1)) as Hr.
  pose proof (shr_fexp_m_nonneg
                (round_nearest_even (shr_m mrs1) (loc_of_shr_record mrs1)) e1
                loc_Exact ltac:(lia)) as H2.
  destruct (shr_fexp p em (round_nearest_even (shr_m mrs1) (loc_of_shr_record mrs1))
              e1 loc_Exact) as [mrs2 e2]. cbn [fst] in H2.
  destruct (shr_m mrs2) as [| q | q]; [reflexivity | | lia].
  destruct (e2 <=? em - p); reflexivity.
Qed.

Lemma binary_round_sign (s : bool) (m : positive) (e : Z) :
  sign_of (binary_round p em s m e) = Some s.
Proof.
  unfold binary_round.
  destruct (shl_align m e (fexp p em (Z.pos (digits2_pos m) + e))) as [mz ez].
  apply binary_round_aux_sign. lia.
Qed.

Lemma div_core_nonneg (m1 m2 : positive) (e1 e2 : Z) :
  0 <= fst (fst (SFdiv_core_binary p em (Z.pos m1) e1 (Z.pos m2) e2)).
Proof.
  unfold SFdiv_core_binary.
  set (s := e1 - e2 - Z.min (fexp p em (Zdigits2 (Z.pos m1) + e1
                                         - (Zdigits2 (Z.pos m2) + e2))) (e1 - e2)).
  set (a := match s with
            | 0 => Z.pos m1
            | Z.pos _ => Z.shiftl (Z.pos m1) s
            | Z.neg _ => 0
            end).
  assert (Ha : 0 <= a).
  { unfold a. destruct s; try lia. apply Z.shiftl_nonneg. lia. }
  assert (Hde : Z.div_eucl a (Z.pos m2) = (a / Z.pos m2, a mod Z.pos m2)).
  { unfold Z.div, Z.modulo. destruct (Z.div_eucl a (Z.pos m2)); reflexivity. }
  rewrite Hde. cbn [fst]. apply Z.div_pos; lia.
Qed.

Lemma div_sign (x y : spec_float) (sx sy : bool) :
  sign_of x = Some sx -> sign_of y = Some sy ->
  sign_of (SFdiv p em x y) = Some (xorb sx sy) \/ SFdiv p em x y = S754_nan.
Proof.
  destruct x as [s1 | s1 | | s1 m1 e1], y as [s2 | s2 | | s2 m2 e2];
    cbn [sign_of SFdiv]; intros Hx Hy; try discriminate;
    injection Hx as <-; injection Hy as <-; auto.
  left.
  pose proof (div_core_nonneg m1 m2 e1 e2) as Hq.
  destruct (SFdiv_core_binary p em (Z.pos m1) e1 (Z.pos m2) e2) as [[q e] l].
  cbn [fst] in Hq. apply binary_round_aux_sign. exact Hq.
Qed.

End Signs.

Lemma to_double_sign (x : float) : sign_of (to_double x) = sign_of x.
Proof.
  destruct x as [s | s | | s m e]; try reflexivity.
  apply binary_round_sign.
Qed.

Lemma of_double_sign (x : F64.double) : sign_of (of_double x) = sign_of x.
Proof.
  destruct x as [s | s | | s m e]; try reflexivity.
  apply binary_round_sign.
Qed.

Lemma sign_of_nan (x : float) : sign_of x = None -> x = S754_nan.
Proof. destruct x; cbn; congruence. Qed.

(** Dividing by the pound constant keeps the sign, and gives NaN for NaN
    only. *)
Lemma lbs_of_kgs_sign (k : float) : sign_of (lbs_of_kgs k) = sign_of k.
Proof.
  unfold lbs_of_kgs. rewrite of_double_sign.
  pose proof (to_double_sign k) as Hd.
  destruct (sign_of k) as [s |] eqn:Hk.
  - destruct (to_double k) as [s1 | s1 | | s1 m1 e1] eqn:Ed;
      cbn [sign_of] in Hd; try discriminate; injection Hd as ->.
    + unfold F64.div, kg_per_lb. cbn [SFdiv sign_of]. destruct s; reflexivity.
    + unfold F64.div, kg_per_lb. cbn [SFdiv sign_of]. destruct s; reflexivity.
    + unfold F64.div, kg_per_lb. cbn [SFdiv].
      pose proof (div_core_nonneg F64.prec F64.emax m1 8171193714040401 e1 (-54)) as Hq.
      destruct (SFdiv_core_binary F64.prec F64.emax (Z.pos m1) e1
                  (Z.pos 8171193714040401) (-54)) as [[q e] l].
      cbn [fst] in Hq. rewrite binary_round_aux_sign by exact Hq.
      destruct s; reflexivity.
  - apply sign_of_nan in Hd. rewrite Hd. reflexivity.
Qed.

Lemma lbs_of_kgs_special (k : float) :
  is_finite k && negb (is_zero k) = false -> lbs_of_kgs k = k.
Proof.
  destruct k as [[] | [] | | s m e]; cbn; intros H; try reflexivity. discriminate H.
Qed.

(** *** The mirrored line *)

Lemma binary_round_aux_opp (s : bool) (m e : Z) (l : location) :
  binary_round_aux prec emax (negb s) m e l
    = SFopp (binary_round_aux prec emax s m e l).
Proof.
  unfold binary_round_aux.
  destruct (shr_fexp prec emax m e l) as [mrs1 e1].
  destruct (shr_fexp prec emax (round_nearest_even (shr_m mrs1) (loc_of_shr_record mrs1))
              e1 loc_Exact) as [mrs2 e2].
  destruct (shr_m mrs2); [reflexivity | | reflexivity].
  destruct (e2 <=? emax - prec); reflexivity.
Qed.

Lemma binary_round_opp (s : bool) (m : positive) (e : Z) :
  binary_round prec emax (negb s) m e = SFopp (binary_round prec emax s m e).
Proof.
  unfold binary_round.
  destruct (shl_align m e (fexp prec emax (Z.pos (digits2_pos m) + e))) as [mz ez].
  apply binary_round_aux_opp.
Qed.

Lemma mul_opp_r (x y : float) : mul x (SFopp y) = SFopp (mul x y).
Proof.
  destruct x as [sx | sx | | sx mx ex], y as [sy | sy | | sy my ey];
    try reflexivity; unfold mul; cbn [SFmul SFopp];
    try (destruct sx, sy; reflexivity).
  replace (xorb sx (negb sy)) with (negb (xorb sx sy)) by (destruct sx, sy; reflexivity).
  apply binary_round_aux_opp.
Qed.

Lemma binary_normalize_opp (z e : Z) :
  same_number (binary_normalize prec emax (- z) e false)
              (SFopp (binary_normalize prec emax z e false)).
Proof.
  destruct z as [| q | q]; cbn [Z.opp binary_normalize].
  - right. split; reflexivity.
  - left. apply (binary_round_opp false).
  - left.
    change (binary_round prec emax true q e)
      with (binary_round prec emax (negb false) q e).
    rewrite binary_round_opp.
    destruct (binary_round prec emax false q e) as [[] | [] | | [] m1 e1]; reflexivity.
Qed.

Lemma cond_Zopp_negb (s : bool) (z : Z) : cond_Zopp (negb s) z = - cond_Zopp s z.
Proof. destruct s; cbn; lia. Qed.

Lemma sub_opp_l (a b : float) :
  same_number (sub (SFopp a) b) (SFopp (add a b)).
Proof.
  destruct a as [[] | [] | | sa ma ea], b as [[] | [] | | sb mb eb];
    try (left; reflexivity); try (right; split; reflexivity).
  unfold sub, add. cbn [SFopp SFsub SFadd].
  rewrite cond_Zopp_negb.
  replace (- cond_Zopp sa (Z.pos (fst (shl_align ma ea (Z.min ea eb))))
           - cond_Zopp sb (Z.pos (fst (shl_align mb eb (Z.min ea eb)))))
    with (- (cond_Zopp sa (Z.pos (fst (shl_align ma ea (Z.min ea eb))))
             + cond_Zopp sb (Z.pos (fst (shl_align mb eb (Z.min ea eb)))))) by lia.
  apply binary_normalize_opp.
Qed.

Lemma gt_zero_opp (k : float) :
  gt k (of_int 0) = true -> gt (SFopp k) (of_int 0) = false.
Proof. destruct k as [[] | [] | | [] m e]; cbn; congruence. Qed.

(** The line of best fit is mirrored: the correction of the opposite of a
    positive reading is the opposite of its correction. *)
Lemma best_fit_opp (m b k : float) :
  gt k (of_int 0) = true ->
  same_number (best_fit m b (SFopp k)) (SFopp (best_fit m b k)).
Proof.
  intros Hk. unfold best_fit. rewrite Hk, (gt_zero_opp k Hk), mul_opp_r.
  apply sub_opp_l.
Qed.

(** *** Calibration and taring together *)

Lemma raw_kilograms_offset (s : StrainGauge) (o v : float) :
  raw_kilograms (set_offset o s) v = raw_kilograms s v.
Proof. reflexivity. Qed.

Lemma sum_raw_offset (adc : nat -> float) (s : StrainGauge) (o : float) (p k : nat) :
  sum_raw adc (set_offset o s) p k = sum_raw adc s p k.
Proof.
  induction k as [| k IH]; [reflexivity |].
  cbn [sum_raw]. rewrite IH, raw_kilograms_offset. reflexivity.
Qed.

Lemma loop_log_in (k : nat) (ev : access) :
  In ev (loop_log k) ->
  exists j, (j < k)%nat /\
            (ev = Read x_arr (Z.of_nat j) \/ ev = Read y_arr (Z.of_nat j)).
Proof.
  induction k as [| k IH]; cbn [loop_log]; intros H; [contradiction |].
  apply in_app_or in H. destruct H as [H | H].
  - exists k. split; [lia |].
    cbn [sum_reads In] in H.
    destruct H as [H | [H | [H | [H | [H | [H | H]]]]]];
      try contradiction; subst ev; auto.
  - destruct (IH H) as (j & Hj & Hev). exists j. split; [lia | exact Hev].
Qed.

Lemma fit_accesses (fuel : nat) (weight_cnt : Z) (st : state) :
  (256 <= fuel)%nat ->
  exists st' l,
    strain_gauge_calculate_equation fuel weight_cnt st = Some (tt, st') /\
    log st' = l ++ log st /\
    forallb (fit_access_ok (u8 (u8 weight_cnt + 1))) l = true /\
    (forall a i, mem st' a i =
       if array_id_eqb equation_arr a && ((i =? 0) || (i =? 1))
       then mem st' equation_arr i else mem st a i) /\
    globals st' = globals st /\ bound st' = bound st /\ adc_pos st' = adc_pos st.
Proof.
  intros Hfuel.
  destruct (calculate_equation_mem fuel weight_cnt st Hfuel)
    as (st' & E & Hm & Hg & Hb & Ha & Hl).
  set (n := u8 (u8 weight_cnt + 1)) in *.
  exists st', (Write equation_arr 1 :: Write equation_arr 0 :: loop_log (Z.to_nat n)).
  split; [exact E |]. split; [exact Hl |].
  split; [| split; [| auto]].
  - cbn [forallb fit_access_ok Z.eqb orb andb].
    apply forallb_forall. intros ev Hev.
    destruct (loop_log_in _ _ Hev) as (j & Hj & [-> | ->]);
      cbn [fit_access_ok]; apply andb_true_intro; split;
      (apply Z.leb_le || apply Z.ltb_lt); pose proof (u8_range (u8 weight_cnt + 1));
      fold n in H; lia.
  - intros a i. rewrite (Hm a i), (Hm equation_arr i).
    destruct a; cbn [array_id_eqb andb]; try reflexivity.
    destruct (Z.eq_dec i 1) as [-> | H1]; [reflexivity |].
    destruct (Z.eq_dec i 0) as [-> | H0]; [reflexivity |].
    replace (1 =? i) with false by (symmetry; apply Z.eqb_neq; lia).
    replace (0 =? i) with false by (symmetry; apply Z.eqb_neq; lia).
    replace (i =? 0) with false by (symmetry; apply Z.eqb_neq; lia).
    replace (i =? 1) with false by (symmetry; apply Z.eqb_neq; lia).
    reflexivity.
Qed.

Section More.

Variable adc : nat -> float.

Lemma calibrate_independent (fuel : nat) (N : Z) (st : state) (m b o : float) (t : bool) :
  (256 <= fuel)%nat ->
  0 <= N < 255 ->
  option_map (fun r => (mem (snd r) equation_arr 0, mem (snd r) equation_arr 1))
    (strain_gauge_calibrate adc fuel N
       (set_taring t (set_sg (set_offset o (sg st)) (set_equation_fields m b st))))
  = option_map (fun r => (mem (snd r) equation_arr 0, mem (snd r) equation_arr 1))
      (strain_gauge_calibrate adc fuel N st).
Proof.
  intros Hfuel HN.
  set (st2 := set_taring t (set_sg (set_offset o (sg st)) (set_equation_fields m b st))).
  destruct (calibrate_data adc fuel N st Hfuel HN)
    as (s1 & E1 & Hx1 & Hxo1 & Hy01 & Hy1 & _ & _ & He01 & He11).
  destruct (calibrate_data adc fuel N st2 Hfuel HN)
    as (s2 & E2 & Hx2 & Hxo2 & Hy02 & Hy2 & _ & _ & He02 & He12).
  rewrite E1, E2. cbn [option_map snd].
  assert (Hs : sums_upto (mem s2 x_arr) (mem s2 y_arr) (Z.to_nat (u8 (N + 2)))
               = sums_upto (mem s1 x_arr) (mem s1 y_arr) (Z.to_nat (u8 (N + 2)))).
  { apply sums_upto_ext. intros i Hi. split.
    - destruct (Z_le_dec i N) as [Hle | Hgt].
      + rewrite Hx1, Hx2 by lia.
        unfold raw_average. cbn [st2 sg adc_pos set_taring set_sg set_equation_fields].
        rewrite sum_raw_offset. reflexivity.
      + rewrite Hxo1, Hxo2 by lia. reflexivity.
    - destruct (Z.eq_dec i 0) as [-> | Hne].
      + rewrite Hy01, Hy02. reflexivity.
      + pose proof (u8_range (N + 2)).
        assert (Hi' : i - 1 <= N).
        { assert (u8 (N + 2) <= N + 2).
          { unfold u8. apply Z.mod_le; lia. }
          lia. }
        replace i with (i - 1 + 1) by lia.
        rewrite Hy1, Hy2 by lia. reflexivity. }
  rewrite He01, He11, He02, He12, Hs. reflexivity.
Qed.

Lemma calibrate_then_tare (fuel : nat) (N : Z) (st : state) :
  (256 <= fuel)%nat ->
  0 <= N < 255 ->
  exists st1 st2,
    strain_gauge_calibrate adc fuel N st = Some (tt, st1) /\
    strain_gauge_tare adc fuel st1 = Some (tt, st2) /\
    forall m b v,
      kgs_of_voltage (set_equation_fields m b st2) v = raw_kilograms (sg st) v.
Proof.
  intros Hfuel HN.
  destruct (calibrate_data adc fuel N st Hfuel HN)
    as (st1 & E1 & _ & _ & _ & _ & _ & (Hc1 & Hsg1 & _) & _).
  destruct (tare_spec adc fuel st1 Hfuel)
    as (st2 & E2 & _ & Hsg2 & _ & _ & Hc2 & _).
  exists st1, st2. split; [exact E1 |]. split; [exact E2 |].
  intros m b v. unfold kgs_of_voltage.
  cbn [calibrating sg set_equation_fields].
  rewrite Hc2, Hc1, Hsg2, Hsg1. apply raw_kilograms_offset.
Qed.

End More.

(** ** Properties of the functions beyond the claims *)

(** X1.  [read_average] takes the next [times] samples of the ADC in order,
    each once; its result is the quotient by [times] of the sum of their
    conversions, first sample first; it lowers [read_sg] when it has taken
    a sample and leaves everything else as it was. *)
Theorem read_average_takes_each_sample_once (adc : nat -> float) (fuel : nat)
    (times : Z) (st : state) :
  (256 <= fuel)%nat ->
  0 <= times < 256 ->
  exists st',
    read_average adc fuel times st
      = Some (div (sum_samples adc st (adc_pos st) (Z.to_nat times)) (of_int times),
              st') /\
    adc_pos st' = (adc_pos st + Z.to_nat times)%nat /\
    read_sg st' = (if times =? 0 then read_sg st else false) /\
    globals st' = globals st /\ mem st' = mem st /\
    bound st' = bound st /\ log st' = log st.
Proof. apply read_average_spec. Qed.

Lemma read_average_takes_each_sample_once_witness :
  exists st',
    read_average steady_adc 256 3 (bench [] [] [])
      = Some (div (sum_samples steady_adc (bench [] [] [])
                     (adc_pos (bench [] [] [])) (Z.to_nat 3)) (of_int 3),
              st') /\
    adc_pos st' = (adc_pos (bench [] [] []) + Z.to_nat 3)%nat /\
    read_sg st' = (if 3 =? 0 then read_sg (bench [] [] []) else false) /\
    globals st' = globals (bench [] [] []) /\ mem st' = mem (bench [] [] []) /\
    bound st' = bound (bench [] [] []) /\ log st' = log (bench [] [] []).
Proof.
  apply (read_average_takes_each_sample_once steady_adc 256 3 (bench [] [] [])); lia.
Defined.

(** X2.  One sample that is not a number among those [read_average] takes
    makes the whole average NaN, in every mode and whatever the
    coefficients and the offset. *)
Theorem nan_sample_poisons_average (adc : nat -> float) (fuel : nat) (times : Z)
    (st : state) (j : nat) :
  (256 <= fuel)%nat ->
  0 <= times < 256 ->
  (j < Z.to_nat times)%nat ->
  adc (adc_pos st + j)%nat = nan ->
  option_map fst (read_average adc fuel times st) = Some nan.
Proof. apply read_average_nan. Qed.

Lemma nan_sample_poisons_average_witness :
  option_map fst (read_average glitch_adc 256 3 (bench [] [] [])) = Some nan.
Proof.
  apply (nan_sample_poisons_average glitch_adc 256 3 (bench [] [] []) 1);
    [lia | lia | vm_compute; lia | reflexivity].
Defined.

(** X3.  [strain_gauge_tare] always returns.  It takes 15 samples, stores as
    the offset their average as [read_kgs] converts them with [taring] up,
    and lowers [taring] again; the capacity, the voltage, the rated output,
    the coefficients, [calibrating] and the arrays are kept. *)
Theorem tare_stores_average_and_lowers_flag (adc : nat -> float) (fuel : nat)
    (st : state) :
  (256 <= fuel)%nat ->
  exists st',
    strain_gauge_tare adc fuel st = Some (tt, st') /\
    taring st' = false /\
    sg st' = set_offset
               (div (sum_samples adc (set_taring true st) (adc_pos st) 15) (of_int 15))
               (sg st) /\
    adc_pos st' = (adc_pos st + 15)%nat /\
    read_sg st' = false /\
    calibrating st' = calibrating st /\
    slope st' = slope st /\ intercept st' = intercept st /\
    mem st' = mem st /\ log st' = log st.
Proof. apply tare_spec. Qed.

Lemma tare_stores_average_and_lowers_flag_witness :
  exists st',
    strain_gauge_tare steady_adc 256 (bench [] [] []) = Some (tt, st') /\
    taring st' = false /\
    sg st' = set_offset
               (div (sum_samples steady_adc (set_taring true (bench [] [] []))
                       (adc_pos (bench [] [] [])) 15) (of_int 15))
               (sg (bench [] [] [])) /\
    adc_pos st' = (adc_pos (bench [] [] []) + 15)%nat /\
    read_sg st' = false /\
    calibrating st' = calibrating (bench [] [] []) /\
    slope st' = slope (bench [] [] []) /\ intercept st' = intercept (bench [] [] []) /\
    mem st' = mem (bench [] [] []) /\ log st' = log (bench [] [] []).
Proof.
  apply (tare_stores_average_and_lowers_flag steady_adc 256 (bench [] [] [])); lia.
Defined.

(** X4.  The offset that [strain_gauge_tare] stores does not depend on the
    offset in place when it is called. *)
Theorem tare_forgets_previous_offset (adc : nat -> float) (fuel : nat)
    (st : state) (o : float) :
  (256 <= fuel)%nat ->
  option_map (fun r => offset (sg (snd r)))
             (strain_gauge_tare adc fuel (set_sg (set_offset o (sg st)) st))
    = option_map (fun r => offset (sg (snd r))) (strain_gauge_tare adc fuel st).
Proof. apply tare_offset_independent. Qed.

Lemma tare_forgets_previous_offset_witness :
  option_map (fun r => offset (sg (snd r)))
             (strain_gauge_tare steady_adc 256
                (set_sg (set_offset (of_int 7) (sg (bench [] [] []))) (bench [] [] [])))
    = option_map (fun r => offset (sg (snd r)))
                 (strain_gauge_tare steady_adc 256 (bench [] [] [])).
Proof.
  apply (tare_forgets_previous_offset steady_adc 256 (bench [] [] []) (of_int 7)); lia.
Defined.

(** X5.  A read depends on the magnitude of the tare offset only: with an
    offset that is not a zero, [read_kgs] converts every sample to the same
    float as with the opposite offset. *)
Theorem read_ignores_offset_sign (st : state) (o v : float) :
  is_zero o = false ->
  kgs_of_voltage (set_sg (set_offset (SFopp o) (sg st)) st) v
    = kgs_of_voltage (set_sg (set_offset o (sg st)) st) v.
Proof.
  intros Hz. unfold kgs_of_voltage.
  cbn [sg calibrating taring slope intercept offset set_sg set_offset].
  rewrite !raw_kilograms_offset.
  destruct (calibrating st); [reflexivity |].
  destruct (taring st); [reflexivity |].
  apply apply_offset_opp. exact Hz.
Qed.

Lemma read_ignores_offset_sign_witness :
  kgs_of_voltage (set_sg (set_offset (SFopp (of_int 2)) (sg (bench [] [] [])))
                         (bench [] [] [])) (of_int 3)
    = kgs_of_voltage (set_sg (set_offset (of_int 2) (sg (bench [] [] [])))
                             (bench [] [] [])) (of_int 3).
Proof.
  apply (read_ignores_offset_sign (bench [] [] []) (of_int 2) (of_int 3)).
  reflexivity.
Defined.

(** X6.  The line of best fit of lines 73-76 is mirrored: the correction of
    the opposite of a positive reading is the opposite of the correction of
    that reading (up to the sign of a zero result). *)
Theorem best_fit_mirrors_negative_readings (m b k : float) :
  gt k (of_int 0) = true ->
  same_number (best_fit m b (SFopp k)) (SFopp (best_fit m b k)).
Proof. apply best_fit_opp. Qed.

Lemma best_fit_mirrors_negative_readings_witness :
  same_number (best_fit (of_int 2) (of_int 1) (SFopp (of_int 3)))
              (SFopp (best_fit (of_int 2) (of_int 1) (of_int 3))).
Proof.
  apply (best_fit_mirrors_negative_readings (of_int 2) (of_int 1) (of_int 3)).
  reflexivity.
Defined.

(** X7.  [strain_gauge_calculate_equation] always returns.  It reads no cell
    but [x[j]] and [y[j]] for [j] below its number of points
    [n = weight_cnt + 1] (modulo 256), writes no cell but [equation[0]] and
    [equation[1]], which receive the slope and the intercept, and changes no
    global. *)
Theorem fit_touches_only_its_arrays (fuel : nat) (weight_cnt : Z) (st : state) :
  (256 <= fuel)%nat ->
  exists st' l,
    strain_gauge_calculate_equation fuel weight_cnt st = Some (tt, st') /\
    log st' = l ++ log st /\
    forallb (fit_access_ok (u8 (u8 weight_cnt + 1))) l = true /\
    (forall a i, mem st' a i =
       if array_id_eqb equation_arr a && (1 =? i)
       then snd (line_of (u8 (u8 weight_cnt + 1))
                   (sums_upto (mem st x_arr) (mem st y_arr)
                      (Z.to_nat (u8 (u8 weight_cnt + 1)))))
       else if array_id_eqb equation_arr a && (0 =? i)
       then fst (line_of (u8 (u8 weight_cnt + 1))
                   (sums_upto (mem st x_arr) (mem st y_arr)
                      (Z.to_nat (u8 (u8 weight_cnt + 1)))))
       else mem st a i) /\
    globals st' = globals st /\ bound st' = bound st /\ adc_pos st' = adc_pos st.
Proof.
  intros Hfuel.
  destruct (fit_accesses fuel weight_cnt st Hfuel)
    as (st' & l & E & Hl & Hok & _ & Hg & Hb & Ha).
  destruct (calculate_equation_mem fuel weight_cnt st Hfuel)
    as (st1 & E1 & Hm & _).
  rewrite E in E1. injection E1 as <-.
  exists st', l. repeat split; assumption.
Qed.

Lemma fit_touches_only_its_arrays_witness :
  exists st' l,
    strain_gauge_calculate_equation 256 2
      (boot [] (map of_int [0; 1; 2]) (map of_int [2; 5; 8])) = Some (tt, st') /\
    log st' = l ++ log (boot [] (map of_int [0; 1; 2]) (map of_int [2; 5; 8])) /\
    forallb (fit_access_ok (u8 (u8 2 + 1))) l = true /\
    (forall a i, mem st' a i =
       if array_id_eqb equation_arr a && (1 =? i)
       then snd (line_of (u8 (u8 2 + 1))
                   (sums_upto
                      (mem (boot [] (map of_int [0; 1; 2]) (map of_int [2; 5; 8])) x_arr)
                      (mem (boot [] (map of_int [0; 1; 2]) (map of_int [2; 5; 8])) y_arr)
                      (Z.to_nat (u8 (u8 2 + 1)))))
       else if array_id_eqb equation_arr a && (0 =? i)
       then fst (line_of (u8 (u8 2 + 1))
                   (sums_upto
                      (mem (boot [] (map of_int [0; 1; 2]) (map of_int [2; 5; 8])) x_arr)
                      (mem (boot [] (map of_int [0; 1; 2]) (map of_int [2; 5; 8])) y_arr)
                      (Z.to_nat (u8 (u8 2 + 1)))))
       else mem (boot [] (map of_int [0; 1; 2]) (map of_int [2; 5; 8])) a i) /\
    globals st' = globals (boot [] (map of_int [0; 1; 2]) (map of_int [2; 5; 8])) /\
    bound st' = bound (boot [] (map of_int [0; 1; 2]) (map of_int [2; 5; 8])) /\
    adc_pos st' = adc_pos (boot [] (map of_int [0; 1; 2]) (map of_int [2; 5; 8])).
Proof.
  apply (fit_touches_only_its_arrays 256 2
           (boot [] (map of_int [0; 1; 2]) (map of_int [2; 5; 8]))).
  lia.
Defined.

(** X8.  [strain_gauge_calibrate] builds its data set from raw conversions:
    for every point [i] from 0 to the weight count [N], [x[i]] is the
    average of the raw conversions of the 20 samples of rank [20 i] to
    [20 i + 19] after the call, and [y[i]] is 0 for the point 0 and the
    known weight [known_weights[i - 1]], as it was at the call, for the
    others.  Both cells lie within their arrays. *)
Theorem calibration_pairs_weights_with_raw_averages (adc : nat -> float)
    (fuel : nat) (N : Z) (st : state) (i : Z) :
  (256 <= fuel)%nat ->
  1 <= N < 255 ->
  0 <= i <= N ->
  exists st',
    strain_gauge_calibrate adc fuel N st = Some (tt, st') /\
    mem st' x_arr i = raw_average adc (sg st) (adc_pos st + 20 * Z.to_nat i) /\
    mem st' y_arr i
      = (if i =? 0 then of_int 0 else mem st known_weights_arr (i - 1)) /\
    in_bounds st' (Read x_arr i) = true /\
    in_bounds st' (Read y_arr i) = true.
Proof.
  intros Hfuel HN Hi.
  destruct (calibrate_data adc fuel N st Hfuel ltac:(lia))
    as (st' & E & Hx & _ & Hy0 & Hy & Hk & _).
  destruct (calibrate_total adc fuel N st Hfuel ltac:(rewrite u8_small; lia))
    as (st1 & E1 & (_ & Hbx & Hby & _) & _).
  rewrite E in E1. injection E1 as <-.
  rewrite (u8_small N) in Hbx, Hby by lia.
  exists st'. split; [exact E |].
  split; [apply Hx; exact Hi |].
  split.
  - destruct (Z.eq_dec i 0) as [-> | Hne].
    + exact Hy0.
    + replace (i =? 0) with false by (symmetry; apply Z.eqb_neq; exact Hne).
      replace i with (i - 1 + 1) at 1 by lia.
      apply Hy. lia.
  - cbn [in_bounds]. rewrite Hbx, Hby.
    split; apply andb_true_intro; split;
      (apply Z.leb_le || apply Z.ltb_lt); lia.
Qed.

Lemma calibration_pairs_weights_with_raw_averages_witness :
  exists st',
    strain_gauge_calibrate steady_adc 256 2 two_weights = Some (tt, st') /\
    mem st' x_arr 2
      = raw_average steady_adc (sg two_weights)
          (adc_pos two_weights + 20 * Z.to_nat 2) /\
    mem st' y_arr 2
      = (if 2 =? 0 then of_int 0 else mem two_weights known_weights_arr (2 - 1)) /\
    in_bounds st' (Read x_arr 2) = true /\
    in_bounds st' (Read y_arr 2) = true.
Proof.
  apply (calibration_pairs_weights_with_raw_averages steady_adc 256 2
           two_weights 2); lia.
Defined.

(** X9.  A calibration with [N] known weights takes 20 samples for each of
    its [N + 1] points and waits 15000 ms before each known weight; it
    installs nothing: the coefficients, the configuration with its offset
    and [taring] are as before. *)
Theorem calibration_cost_and_frame (adc : nat -> float) (fuel : nat) (N : Z)
    (st : state) :
  (256 <= fuel)%nat ->
  1 <= N < 255 ->
  exists st',
    strain_gauge_calibrate adc fuel N st = Some (tt, st') /\
    adc_pos st' = (adc_pos st + 20 * Z.to_nat (N + 1))%nat /\
    waited_ms st' = waited_ms st + 15000 * N /\
    slope st' = slope st /\ intercept st' = intercept st /\
    sg st' = sg st /\ taring st' = taring st.
Proof.
  intros Hfuel HN.
  destruct (calibrate_data adc fuel N st Hfuel ltac:(lia))
    as (st' & E & _ & _ & _ & _ & _ & (_ & Hsg & Ht & Hs & Hi & Hw & Hp) & _).
  exists st'. repeat split; assumption.
Qed.

Lemma calibration_cost_and_frame_witness :
  exists st',
    strain_gauge_calibrate steady_adc 256 2 two_weights
      = Some (tt, st') /\
    adc_pos st' = (adc_pos two_weights + 20 * Z.to_nat (2 + 1))%nat /\
    waited_ms st' = waited_ms two_weights + 15000 * 2 /\
    slope st' = slope two_weights /\
    intercept st' = intercept two_weights /\
    sg st' = sg two_weights /\
    taring st' = taring two_weights.
Proof.
  apply (calibration_cost_and_frame steady_adc 256 2
           two_weights); lia.
Defined.

(** X10.  The coefficients a calibration computes do not depend on the
    coefficients, on the offset or on [taring] as they are when it is
    called. *)
Theorem calibration_forgets_previous_settings (adc : nat -> float) (fuel : nat)
    (N : Z) (st : state) (m b o : float) (t : bool) :
  (256 <= fuel)%nat ->
  1 <= N < 255 ->
  option_map (fun r => (mem (snd r) equation_arr 0, mem (snd r) equation_arr 1))
    (strain_gauge_calibrate adc fuel N
       (set_taring t (set_sg (set_offset o (sg st)) (set_equation_fields m b st))))
  = option_map (fun r => (mem (snd r) equation_arr 0, mem (snd r) equation_arr 1))
      (strain_gauge_calibrate adc fuel N st).
Proof.
  intros Hfuel HN. apply calibrate_independent; [exact Hfuel | lia].
Qed.

Lemma calibration_forgets_previous_settings_witness :
  option_map (fun r => (mem (snd r) equation_arr 0, mem (snd r) equation_arr 1))
    (strain_gauge_calibrate steady_adc 256 1
       (set_taring true
          (set_sg (set_offset (of_int 3) (sg (bench [of_int 1] [] [])))
             (set_equation_fields (of_int 2) (of_int 1) (bench [of_int 1] [] [])))))
  = option_map (fun r => (mem (snd r) equation_arr 0, mem (snd r) equation_arr 1))
      (strain_gauge_calibrate steady_adc 256 1 (bench [of_int 1] [] [])).
Proof.
  apply (calibration_forgets_previous_settings steady_adc 256 1
           (bench [of_int 1] [] []) (of_int 2) (of_int 1) (of_int 3) true); lia.
Defined.

(** X11.  After a calibration, taring and setting coefficients change no
    reading: [strain_gauge_tare] still returns, and every later read is the
    raw conversion of its sample, whatever coefficients are then set. *)
Theorem after_calibration_tare_changes_no_reading (adc : nat -> float)
    (fuel : nat) (N : Z) (st : state) :
  (256 <= fuel)%nat ->
  1 <= N < 255 ->
  exists st1 st2,
    strain_gauge_calibrate adc fuel N st = Some (tt, st1) /\
    strain_gauge_tare adc fuel st1 = Some (tt, st2) /\
    forall m b v,
      kgs_of_voltage (set_equation_fields m b st2) v = raw_kilograms (sg st) v.
Proof.
  intros Hfuel HN. apply calibrate_then_tare; [exact Hfuel | lia].
Qed.

Lemma after_calibration_tare_changes_no_reading_witness :
  exists st1 st2,
    strain_gauge_calibrate steady_adc 256 1 (bench [of_int 1] [] []) = Some (tt, st1) /\
    strain_gauge_tare steady_adc 256 st1 = Some (tt, st2) /\
    forall m b v,
      kgs_of_voltage (set_equation_fields m b st2) v
        = raw_kilograms (sg (bench [of_int 1] [] [])) v.
Proof.
  apply (after_calibration_tare_changes_no_reading steady_adc 256 1
           (bench [of_int 1] [] [])); lia.
Defined.

(** X12.  [read_lbs] takes the sample [read_kgs] would take and returns its
    conversion divided by the pound constant: a float of the same sign as
    the kilogram reading, and NaN exactly when that reading is NaN. *)
Theorem read_lbs_keeps_sign (adc : nat -> float) (st : state) :
  exists k st',
    read_kgs adc st = Some (k, st') /\
    read_lbs adc st = Some (lbs_of_kgs k, st') /\
    sign_of (lbs_of_kgs k) = sign_of k.
Proof.
  eexists. eexists. split; [reflexivity |]. split; [reflexivity |].
  apply lbs_of_kgs_sign.
Qed.

(** X13.  A kilogram reading that is a zero, an infinity or NaN is returned
    unchanged in pounds. *)
Theorem read_lbs_keeps_special_readings (k : float) :
  is_finite k && negb (is_zero k) = false -> lbs_of_kgs k = k.
Proof. apply lbs_of_kgs_special. Qed.

Lemma read_lbs_keeps_special_readings_witness :
  lbs_of_kgs (S754_infinity true) = S754_infinity true.
Proof.
  apply (read_lbs_keeps_special_readings (S754_infinity true)). reflexivity.
Defined.

(** X14.  With 255 known weights [strain_gauge_calibrate] never returns: the
    [uint8_t] counter of its copy loop wraps from 255 to 0 and the test
    [i <= weight_cnt] never fails. *)
Theorem calibrate_with_255_weights_never_returns (adc : nat -> float)
    (fuel : nat) (st : state) :
  strain_gauge_calibrate adc fuel 255 st = None.
Proof.
  unfold strain_gauge_calibrate. cbv zeta.
  cbn [bind modify store].
  apply bind_none.
  refine (for_u8_diverges (fun i => i <=? u8 255)
            (fun i _ => w <- load known_weights_arr i ;; store y_arr (i + 1) w)
            _ fuel 0 tt _).
  intros i. apply Z.leb_le. pose proof (u8_range i). cbn. lia.
Qed.

(** X15.  A sample that is not a number during a tare is stored: the offset
    becomes NaN, and from then on every read outside calibration mode is
    NaN, whatever its sample. *)
Theorem nan_sample_during_tare_poisons_reads (adc : nat -> float) (fuel : nat)
    (st : state) (j : nat) :
  (256 <= fuel)%nat ->
  (j < 15)%nat ->
  adc (adc_pos st + j)%nat = nan ->
  calibrating st = false ->
  exists st',
    strain_gauge_tare adc fuel st = Some (tt, st') /\
    offset (sg st') = nan /\
    forall v, kgs_of_voltage st' v = nan.
Proof.
  intros Hfuel Hj Hn Hc.
  destruct (tare_spec adc fuel st Hfuel)
    as (st' & E & Ht & Hsg & _ & _ & Hc' & _).
  assert (Ho : offset (sg st') = nan).
  { rewrite Hsg. cbn [offset set_offset].
    rewrite (sum_samples_nan adc (set_taring true st) (adc_pos st) j 15 Hj Hn).
    reflexivity. }
  exists st'. split; [exact E |]. split; [exact Ho |].
  intros v. unfold kgs_of_voltage, apply_offset.
  rewrite Hc', Hc, Ht, Ho.
  change (gt nan (of_int 0)) with false. cbv iota.
  apply add_nan_r.
Qed.

Lemma nan_sample_during_tare_poisons_reads_witness :
  exists st',
    strain_gauge_tare glitch_adc 256 (bench [] [] []) = Some (tt, st') /\
    offset (sg st') = nan /\
    forall v, kgs_of_voltage st' v = nan.
Proof.
  apply (nan_sample_during_tare_poisons_reads glitch_adc 256 (bench [] [] []) 1);
    [lia | lia | reflexivity | reflexivity].
Defined.
